(** * monorepo-example: the Express server, the React click handler and
      the type they share

    A shallow embedding of [packages/simple-express-server/server.ts] and of
    the [onClick] handler of [packages/simple-react-app/src/App.tsx].

    The two files are a dozen executable lines; what they do is decided by
    the platform calls they make ([app.use], [app.get], [res.setHeader],
    [res.json], [_.snakeCase], [fetch], [response.json], [console.log]).
    Each platform call is given a small executable model in a module of its
    own ([Lodash], [JSON], [Express], [Browser]), and so are the packages
    [res.send] relies on for conditional requests ([Etag], [Fresh],
    [ContentType]); the program text itself is transcribed in [Server] and
    [Client], and the import/export structure of the packages in
    [Packages]. *)

From Stdlib Require Import Ascii String List Bool Arith ZArith NArith Lia.
From Stdlib Require Import DecimalString HexadecimalString.
From stdpp Require Import base option gmap strings list fin_maps.

Local Open Scope string_scope.
Local Open Scope list_scope.

(* ===================================================================== *)
(** * Characters and strings

    A JavaScript string is modelled by the UTF-8 bytes of its text. *)
(* ===================================================================== *)

Module Chars.

Definition code (c : ascii) : nat := nat_of_ascii c.

Definition between (lo hi : nat) (c : ascii) : bool :=
  (lo <=? code c)%nat && (code c <=? hi)%nat.

Definition is_upper : ascii -> bool := between 65 90.
Definition is_lower : ascii -> bool := between 97 122.
Definition is_digit : ascii -> bool := between 48 57.
Definition is_alnum (c : ascii) : bool := is_upper c || is_lower c || is_digit c.

(** [String.prototype.toLowerCase], on the ASCII letters. *)
Definition lower (c : ascii) : ascii :=
  if is_upper c then ascii_of_nat (code c + 32) else c.

Fixpoint toLowerCase (s : string) : string :=
  match s with
  | EmptyString => EmptyString
  | String c s' => String (lower c) (toLowerCase s')
  end.

Fixpoint filter_string (p : ascii -> bool) (s : string) : string :=
  match s with
  | EmptyString => EmptyString
  | String c s' => if p c then String c (filter_string p s') else filter_string p s'
  end.

(** [Array.prototype.join]. *)
Fixpoint join (sep : string) (l : list string) : string :=
  match l with
  | [] => ""
  | [x] => x
  | x :: rest => x +:+ sep +:+ join sep rest
  end.

End Chars.

(* ===================================================================== *)
(** * lodash *)
(* ===================================================================== *)

Module Lodash.
Import Chars.

(** The characters [reAsciiWord] matches:
    [/[^\x00-\x2f\x3a-\x40\x5b-\x60\x7b-\x7f]+/g]. *)
Definition is_ascii_word_char (c : ascii) : bool :=
  negb (between 0 47 c || between 58 64 c || between 91 96 c || between 123 127 c).

(** [asciiWords]: the maximal runs of word characters, left to right.
    [cur] is the run being read. *)
Fixpoint asciiWords_from (cur : string) (s : string) : list string :=
  match s with
  | EmptyString => if String.eqb cur "" then [] else [cur]
  | String c s' =>
      if is_ascii_word_char c then asciiWords_from (cur +:+ String c "") s'
      else if String.eqb cur "" then asciiWords_from "" s'
           else cur :: asciiWords_from "" s'
  end.

Definition asciiWords (s : string) : list string := asciiWords_from "" s.

(** [hasUnicodeWord]: lodash leaves [asciiWords] for another splitter when
    the text has a lower-to-upper, acronym or letter/digit boundary, or a
    character other than a letter, a digit or a space
    ([/[a-z][A-Z]|[A-Z]{2}[a-z]|[0-9][a-zA-Z]|[a-zA-Z][0-9]|[^a-zA-Z0-9 ]/]). *)
Fixpoint hasUnicodeWord (s : string) : bool :=
  match s with
  | EmptyString => false
  | String a s1 =>
      negb (is_alnum a || Ascii.eqb a " ")
      || match s1 with
         | EmptyString => false
         | String b s2 =>
             (is_lower a && is_upper b)
             || (is_digit a && (is_lower b || is_upper b))
             || ((is_lower a || is_upper a) && is_digit b)
             || match s2 with
                | EmptyString => false
                | String c _ => is_upper a && is_upper b && is_lower c
                end
         end
      || hasUnicodeWord s1
  end.

(** The callback [snakeCase] hands to [createCompounder], folded by
    [arrayReduce] over the words with their index:
    [result + (index ? '_' : '') + word.toLowerCase()]. *)
Fixpoint compound (ws : list string) (index : nat) (result : string) : string :=
  match ws with
  | [] => result
  | word :: ws' =>
      compound ws' (S index)
        (result +:+ (if (index =? 0)%nat then "" else "_") +:+ toLowerCase word)
  end.

(** [_.snakeCase(string)]: the text is cut into its words, each word is
    lowercased and the words are joined with underscores.  This is
    lodash's pipeline,
    [arrayReduce(words(deburr(string).replace(reApos, '')), callback, '')],
    on the [asciiWords] branch of [words]; [deburr] changes accented
    Latin letters only and the apostrophe removed is the ASCII one.  On a
    text for which [hasUnicodeWord] holds lodash takes its other
    splitter, which also cuts at camelCase and digit boundaries; the
    phrase the server passes is not such a text. *)
Definition snakeCase (s : string) : string :=
  compound (asciiWords (filter_string (fun c => negb (Ascii.eqb c "'")) s)) 0 "".

End Lodash.

(* ===================================================================== *)
(** * JSON

    The values [JSON.stringify] writes and [JSON.parse] reads.  An object is
    the list of its own properties in insertion order, with distinct keys.
    A number is kept as the decimal literal that denotes it: the program
    never computes with one. *)
(* ===================================================================== *)

Module JSON.
Import Chars.

Local Unset Elimination Schemes.

Inductive json : Type :=
| JNull
| JBool (b : bool)
| JNum (literal : string)
| JStr (s : string)
| JArr (items : list json)
| JObj (fields : list (string * json)).

Local Set Elimination Schemes.

(** ** Writing *)

Definition hex_digit (n : N) : ascii :=
  ascii_of_N (if (n <? 10)%N then 48 + n else 87 + n)%N.

(** [QuoteJSONString], one character: the two-character escapes, [\u00xx]
    for the other control characters, the character itself otherwise. *)
Definition quote_char (c : ascii) : string :=
  let n := N_of_ascii c in
  if (n =? 34)%N then String "\" (String c "")
  else if (n =? 92)%N then "\\"
  else if (n =? 8)%N then "\b"
  else if (n =? 12)%N then "\f"
  else if (n =? 10)%N then "\n"
  else if (n =? 13)%N then "\r"
  else if (n =? 9)%N then "\t"
  else if (n <? 32)%N then
    "\u00" +:+ String (hex_digit (n / 16)) (String (hex_digit (n mod 16)) "")
  else String c "".

Fixpoint quote_chars (s : string) : string :=
  match s with
  | EmptyString => ""
  | String c s' => quote_char c +:+ quote_chars s'
  end.

(** The double quote, character 34. *)
Definition dquote : ascii := ascii_of_N 34.

Definition quote (s : string) : string :=
  String dquote (quote_chars s) +:+ String dquote "".

(** [JSON.stringify(value)] with neither replacer nor indentation. *)
Fixpoint stringify (v : json) : string :=
  match v with
  | JNull => "null"
  | JBool true => "true"
  | JBool false => "false"
  | JNum literal => literal
  | JStr s => quote s
  | JArr items => "[" +:+ join "," (map stringify items) +:+ "]"
  | JObj fields =>
      "{" +:+ join "," (map (fun kv => quote (fst kv) +:+ ":" +:+ stringify (snd kv)) fields)
          +:+ "}"
  end.

(** ** Objects *)

(** [obj[key]] for an own property. *)
Fixpoint get_own (key : string) (fields : list (string * json)) : option json :=
  match fields with
  | [] => None
  | (k, v) :: rest => if String.eqb k key then Some v else get_own key rest
  end.

(** [obj[key] = v]: an existing property keeps its place and takes the new
    value, a new one goes last. *)
Fixpoint set_own (key : string) (v : json) (fields : list (string * json))
  : list (string * json) :=
  match fields with
  | [] => [(key, v)]
  | (k, w) :: rest =>
      if String.eqb k key then (k, v) :: rest else (k, w) :: set_own key v rest
  end.

(** ** Reading *)

Definition is_ws (c : ascii) : bool :=
  let n := N_of_ascii c in
  (n =? 32)%N || (n =? 9)%N || (n =? 10)%N || (n =? 13)%N.

Fixpoint skip_ws (s : string) : string :=
  match s with
  | String c s' => if is_ws c then skip_ws s' else s
  | EmptyString => s
  end.

(** The longest run of decimal digits at the head of [s], and the rest. *)
Fixpoint take_digits (s : string) : string * string :=
  match s with
  | String c s' =>
      if is_digit c then let '(ds, r) := take_digits s' in (String c ds, r)
      else ("", s)
  | EmptyString => ("", s)
  end.

(** A number: an optional minus sign; a zero, or a nonzero digit and any
    digits; optionally a point and one digit or more; optionally an [e]
    or [E], a sign and one digit or more. *)
Definition read_int (s : string) : option (string * string) :=
  match s with
  | String c r =>
      if Ascii.eqb c "0" then Some ("0", r)
      else if is_digit c then let '(ds, r') := take_digits r in Some (String c ds, r')
      else None
  | EmptyString => None
  end.

(** One or more digits. *)
Definition read_digits (s : string) : option (string * string) :=
  match take_digits s with
  | (EmptyString, _) => None
  | (ds, r) => Some (ds, r)
  end.

Definition read_frac (s : string) : option (string * string) :=
  match s with
  | String c r =>
      if Ascii.eqb c "." then '(ds, r') ← read_digits r; Some (String c ds, r')
      else Some ("", s)
  | EmptyString => Some ("", s)
  end.

Definition read_sign (s : string) : string * string :=
  match s with
  | String c r => if Ascii.eqb c "+" || Ascii.eqb c "-" then (String c "", r) else ("", s)
  | EmptyString => ("", s)
  end.

Definition read_exp (s : string) : option (string * string) :=
  match s with
  | String c r =>
      if Ascii.eqb c "e" || Ascii.eqb c "E" then
        let '(sign, r1) := read_sign r in
        '(ds, r2) ← read_digits r1;
        Some (String c sign +:+ ds, r2)
      else Some ("", s)
  | EmptyString => Some ("", s)
  end.

Definition read_minus (s : string) : string * string :=
  match s with
  | String c r => if Ascii.eqb c "-" then (String c "", r) else ("", s)
  | EmptyString => ("", s)
  end.

Definition read_number (s : string) : option (string * string) :=
  let '(sign, s0) := read_minus s in
  '(i, s1) ← read_int s0;
  '(f, s2) ← read_frac s1;
  '(e, s3) ← read_exp s2;
  Some (sign +:+ i +:+ f +:+ e, s3).

(** A string literal is read in two passes.  The first yields what the
    literal spells: bytes copied from the text, and UTF-16 code units
    written as [\uXXXX]. *)
Inductive piece : Type :=
| Byte (c : ascii)
| Unit (u : N).

Definition hex_value (c : ascii) : option N :=
  let n := N_of_ascii c in
  if is_digit c then Some (n - 48)%N
  else if between 97 102 c then Some (n - 87)%N
  else if between 65 70 c then Some (n - 55)%N
  else None.

Definition hex4 (a b c d : ascii) : option N :=
  x ← hex_value a; y ← hex_value b; z ← hex_value c; w ← hex_value d;
  Some (((x * 16 + y) * 16 + z) * 16 + w)%N.

Definition escape_char (c : ascii) : option ascii :=
  let n := N_of_ascii c in
  if (n =? 34)%N || (n =? 92)%N || (n =? 47)%N then Some c
  else if Ascii.eqb c "b" then Some (ascii_of_N 8)
  else if Ascii.eqb c "f" then Some (ascii_of_N 12)
  else if Ascii.eqb c "n" then Some (ascii_of_N 10)
  else if Ascii.eqb c "r" then Some (ascii_of_N 13)
  else if Ascii.eqb c "t" then Some (ascii_of_N 9)
  else None.

(** The text after the opening quote, up to the closing one. *)
Fixpoint read_pieces (s : string) : option (list piece * string) :=
  match s with
  | EmptyString => None
  | String c r =>
      if Ascii.eqb c dquote then Some ([], r)
      else if Ascii.eqb c "\" then
        match r with
        | String e r' =>
            if Ascii.eqb e "u" then
              match r' with
              | String h1 (String h2 (String h3 (String h4 r''))) =>
                  u ← hex4 h1 h2 h3 h4;
                  '(ps, rest) ← read_pieces r'';
                  Some (Unit u :: ps, rest)
              | _ => None
              end
            else
              b ← escape_char e;
              '(ps, rest) ← read_pieces r';
              Some (Byte b :: ps, rest)
        | EmptyString => None
        end
      else if (N_of_ascii c <? 32)%N then None
      else '(ps, rest) ← read_pieces r; Some (Byte c :: ps, rest)
  end.

(** The UTF-8 bytes of a code point; a surrogate that stands alone gets
    the three bytes the same bit layout gives it. *)
Definition utf8 (n : N) : string :=
  let cont (k : N) := ascii_of_N (128 + k mod 64)%N in
  if (n <? 128)%N then String (ascii_of_N n) ""
  else if (n <? 2048)%N then
    String (ascii_of_N (192 + n / 64)%N) (String (cont n) "")
  else if (n <? 65536)%N then
    String (ascii_of_N (224 + n / 4096)%N)
      (String (cont (n / 64)%N) (String (cont n) ""))
  else
    String (ascii_of_N (240 + n / 262144)%N)
      (String (cont (n / 4096)%N) (String (cont (n / 64)%N) (String (cont n) ""))).

Definition is_high_surrogate (u : N) : bool := (55296 <=? u)%N && (u <=? 56319)%N.
Definition is_low_surrogate (u : N) : bool := (56320 <=? u)%N && (u <=? 57343)%N.

(** The second pass: a high surrogate followed by a low one is one code
    point; every other unit is a code point by itself. *)
Fixpoint text_of (ps : list piece) : string :=
  match ps with
  | [] => ""
  | Byte c :: rest => String c (text_of rest)
  | Unit hi :: rest =>
      match rest with
      | Unit lo :: rest' =>
          if is_high_surrogate hi && is_low_surrogate lo
          then utf8 (65536 + (hi - 55296) * 1024 + (lo - 56320))%N +:+ text_of rest'
          else utf8 hi +:+ text_of rest
      | _ => utf8 hi +:+ text_of rest
      end
  end.

Definition read_string (s : string) : option (string * string) :=
  '(ps, rest) ← read_pieces s; Some (text_of ps, rest).

(** [s] without [word] at its head. *)
Fixpoint strip_prefix (word s : string) : option string :=
  match word with
  | EmptyString => Some s
  | String a word' =>
      match s with
      | String b s' => if Ascii.eqb a b then strip_prefix word' s' else None
      | EmptyString => None
      end
  end.

Definition expect (word : string) (v : json) (s : string) : option (json * string) :=
  rest ← strip_prefix word s; Some (v, rest).

(** What follows a value inside an array or an object. *)
Inductive separator : Type :=
| Comma (rest : string)
| Close (rest : string)
| Neither.

Definition read_separator (close : ascii) (s : string) : separator :=
  match skip_ws s with
  | String c rest =>
      if Ascii.eqb c "," then Comma rest
      else if Ascii.eqb c close then Close rest
      else Neither
  | EmptyString => Neither
  end.

(** Whether the bracket just opened closes at once. *)
Definition read_close (close : ascii) (s : string) : option string :=
  match skip_ws s with
  | String c rest => if Ascii.eqb c close then Some rest else None
  | EmptyString => None
  end.

(** A key and its colon. *)
Definition read_key (s : string) : option (string * string) :=
  match skip_ws s with
  | String c r =>
      if Ascii.eqb c dquote then
        '(key, r1) ← read_string r;
        match skip_ws r1 with
        | String c' r2 => if Ascii.eqb c' ":" then Some (key, r2) else None
        | EmptyString => None
        end
      else None
  | EmptyString => None
  end.

(** The recursive descent of [JSON.parse].  Every call consumes a
    character before it recurses, so [fuel] beyond twice the length of
    the text is never used up. *)
Fixpoint read_value (fuel : nat) (s : string) : option (json * string) :=
  match fuel with
  | O => None
  | S fuel' =>
      match skip_ws s with
      | String c r =>
          if Ascii.eqb c "n" then expect "null" JNull (String c r)
          else if Ascii.eqb c "t" then expect "true" (JBool true) (String c r)
          else if Ascii.eqb c "f" then expect "false" (JBool false) (String c r)
          else if Ascii.eqb c dquote then
            '(str, rest) ← read_string r; Some (JStr str, rest)
          else if Ascii.eqb c "[" then
            match read_close "]" r with
            | Some rest => Some (JArr [], rest)
            | None => '(items, rest) ← read_items fuel' r; Some (JArr items, rest)
            end
          else if Ascii.eqb c "{" then
            match read_close "}" r with
            | Some rest => Some (JObj [], rest)
            | None => '(fields, rest) ← read_members fuel' [] r; Some (JObj fields, rest)
            end
          else '(literal, rest) ← read_number (String c r); Some (JNum literal, rest)
      | EmptyString => None
      end
  end
with read_items (fuel : nat) (s : string) : option (list json * string) :=
  match fuel with
  | O => None
  | S fuel' =>
      '(v, r) ← read_value fuel' s;
      match read_separator "]" r with
      | Comma r' => '(vs, rest) ← read_items fuel' r'; Some (v :: vs, rest)
      | Close rest => Some ([v], rest)
      | Neither => None
      end
  end
with read_members (fuel : nat) (acc : list (string * json)) (s : string)
  : option (list (string * json) * string) :=
  match fuel with
  | O => None
  | S fuel' =>
      '(key, r) ← read_key s;
      '(v, r') ← read_value fuel' r;
      match read_separator "}" r' with
      | Comma r'' => read_members fuel' (set_own key v acc) r''
      | Close rest => Some (set_own key v acc, rest)
      | Neither => None
      end
  end.

(** [JSON.parse(text)]: [None] stands for the [SyntaxError] it throws. *)
Definition parse (text : string) : option json :=
  '(v, rest) ← read_value (2 * String.length text + 2) text;
  match skip_ws rest with
  | EmptyString => Some v
  | _ => None
  end.

(** ** What [quote] writes, read back *)

(** The piece [read_pieces] gets from what [quote_char] writes for [c]: a
    code unit for a control character written as [\u00xx], the byte
    itself otherwise. *)
Definition piece_of (c : ascii) : piece :=
  let n := N_of_ascii c in
  if (n =? 8)%N || (n =? 12)%N || (n =? 10)%N || (n =? 13)%N || (n =? 9)%N then Byte c
  else if (n <? 32)%N then Unit n
  else Byte c.

Fixpoint pieces_of (s : string) : list piece :=
  match s with
  | EmptyString => []
  | String c s' => piece_of c :: pieces_of s'
  end.


(** ** The fuel

    What it means for a reader to be settled at [fuel]: a result it gives
    is past at least one character, and any amount of fuel that covers
    twice the characters consumed gives the same result. *)
Definition value_settles (fuel : nat) : Prop :=
  forall s v rest,
    read_value fuel s = Some (v, rest) ->
    String.length rest < String.length s
    /\ forall fuel', 2 * (String.length s - String.length rest) <= fuel' ->
                     read_value fuel' s = Some (v, rest).

Definition items_settle (fuel : nat) : Prop :=
  forall s vs rest,
    read_items fuel s = Some (vs, rest) ->
    String.length rest < String.length s
    /\ forall fuel', 2 * (String.length s - String.length rest) <= fuel' + 1 ->
                     read_items fuel' s = Some (vs, rest).

Definition members_settle (fuel : nat) : Prop :=
  forall acc s fs rest,
    read_members fuel acc s = Some (fs, rest) ->
    String.length rest < String.length s
    /\ forall fuel', 2 * (String.length s - String.length rest) <= fuel' + 1 ->
                     read_members fuel' acc s = Some (fs, rest).

End JSON.

(* ===================================================================== *)
(** * HTTP messages *)
(* ===================================================================== *)

Module Http.

(** The methods with a constructor of their own, and any other one Node
    hands to the application, by its name.  A CONNECT is not among them:
    Node keeps it from the request listener, and the application never
    sees it. *)
Inductive Method : Type :=
| GET | HEAD | POST | PUT | DELETE | PATCH | OPTIONS
| Other (name : string).

Definition Method_eqb (a b : Method) : bool :=
  match a, b with
  | GET, GET | HEAD, HEAD | POST, POST | PUT, PUT
  | DELETE, DELETE | PATCH, PATCH | OPTIONS, OPTIONS => true
  | Other x, Other y => String.eqb x y
  | _, _ => false
  end.

Definition method_name (m : Method) : string :=
  match m with
  | GET => "GET" | HEAD => "HEAD" | POST => "POST" | PUT => "PUT"
  | DELETE => "DELETE" | PATCH => "PATCH" | OPTIONS => "OPTIONS"
  | Other name => name
  end.

(** A request as Node hands it to the application: the method, the
    request target ([req.url], in origin form: path and query string), the
    header fields ([req.headers], keyed by the name in lower case, the
    values of a repeated field joined) and the body.  Neither callback of
    the server reads its [_req]; Express reads the method, the target and
    the cache validators among the fields. *)
Record Request : Type := {
  method : Method;
  url : string;
  reqHeaders : gmap string string;
  content : string
}.

(** A header that is set and not empty: what JavaScript's [!value] tests. *)
Definition given (value : option string) : option string :=
  match value with
  | Some EmptyString => None
  | other => other
  end.

(** A response body: nothing, a chunk of text, or the HTML document the
    final handler of Express renders around a message. *)
Inductive Body : Type :=
| Empty
| Text (chunk : string)
| ErrorPage (message : string).

(** Header names are case-insensitive: the map is keyed by the name in
    lower case, as Node keeps it. *)
Record Response : Type := {
  status : nat;
  headers : gmap string string;
  body : Body
}.

Definition header (name : string) (r : Response) : option string :=
  headers r !! Chars.toLowerCase name.

End Http.

(* ===================================================================== *)
(** * Entity tags

    [res.send] tags the body it sends: the [etag] package writes the
    length of the body in hexadecimal and the first 27 characters of the
    base64 form of its SHA-1 digest. *)
(* ===================================================================== *)

Module Sha1.

Definition mask32 : N := 4294967295.
Definition add32 (a b : N) : N := N.land (a + b) mask32.
Definition rotl (k x : N) : N :=
  N.land (N.lor (N.shiftl x k) (N.shiftr x (32 - k))) mask32.
Definition not32 (x : N) : N := N.lxor x mask32.

Definition bytes (s : string) : list N := map N_of_ascii (list_ascii_of_string s).

(** The [width] low bytes of [x], the most significant first. *)
Fixpoint be (width : nat) (x : N) : list N :=
  match width with
  | O => []
  | S w => N.land (N.shiftr x (8 * N.of_nat w)) 255 :: be w x
  end.

(** The message, a one bit, zero bits up to 56 bytes modulo 64, and the
    length of the message in bits. *)
Definition pad (msg : list N) : list N :=
  msg ++ [128%N] ++ repeat 0%N ((119 - length msg mod 64) mod 64)
      ++ be 8 (8 * N.of_nat (length msg)).

Fixpoint words (bs : list N) : list N :=
  match bs with
  | a :: b :: c :: d :: rest =>
      (N.shiftl a 24 + N.shiftl b 16 + N.shiftl c 8 + d)%N :: words rest
  | _ => []
  end.

Fixpoint blocks (count : nat) (ws : list N) : list (list N) :=
  match count with
  | O => []
  | S n => firstn 16 ws :: blocks n (skipn 16 ws)
  end.

(** The message schedule, the latest word first. *)
Fixpoint extend (n : nat) (recent : list N) : list N :=
  match n with
  | O => recent
  | S n' =>
      extend n'
        (rotl 1 (N.lxor (N.lxor (nth 2 recent 0%N) (nth 7 recent 0%N))
                        (N.lxor (nth 13 recent 0%N) (nth 15 recent 0%N)))
           :: recent)
  end.

Definition schedule (block : list N) : list N := rev (extend 64 (rev block)).

Definition State : Type := N * N * N * N * N.

Definition round (t : nat) (st : State) (w : N) : State :=
  let '(a, b, c, d, e) := st in
  let '(f, k) :=
    if (t <? 20)%nat then (N.lor (N.land b c) (N.land (not32 b) d), 1518500249%N)
    else if (t <? 40)%nat then (N.lxor (N.lxor b c) d, 1859775393%N)
    else if (t <? 60)%nat
         then (N.lor (N.lor (N.land b c) (N.land b d)) (N.land c d), 2400959708%N)
         else (N.lxor (N.lxor b c) d, 3395469782%N) in
  (add32 (add32 (add32 (add32 (rotl 5 a) f) e) k) w, a, rotl 30 b, c, d).

Fixpoint rounds (t : nat) (ws : list N) (st : State) : State :=
  match ws with
  | [] => st
  | w :: rest => rounds (S t) rest (round t st w)
  end.

Definition compress (h : State) (block : list N) : State :=
  let '(a, b, c, d, e) := rounds 0 (schedule block) h in
  let '(h0, h1, h2, h3, h4) := h in
  (add32 h0 a, add32 h1 b, add32 h2 c, add32 h3 d, add32 h4 e).

Definition initial : State :=
  (1732584193%N, 4023233417%N, 2562383102%N, 271733878%N, 3285377520%N).

(** The twenty bytes of the digest. *)
Definition digest (s : string) : list N :=
  let padded := pad (bytes s) in
  let '(h0, h1, h2, h3, h4) :=
    fold_left compress (blocks (length padded / 64) (words padded)) initial in
  be 4 h0 ++ be 4 h1 ++ be 4 h2 ++ be 4 h3 ++ be 4 h4.

End Sha1.

Module Base64.

Definition alphabet : list ascii :=
  list_ascii_of_string
    "ABCDEFGHIJKLMNOPQRSTUVWXYZabcdefghijklmnopqrstuvwxyz0123456789+/".

Definition sextet (n : N) : ascii := nth (N.to_nat n) alphabet "="%char.

Fixpoint encode (bs : list N) : string :=
  match bs with
  | [] => ""
  | [a] =>
      String (sextet (N.shiftr a 2))
        (String (sextet (N.land (N.shiftl a 4) 63)) "==")
  | [a; b] =>
      String (sextet (N.shiftr a 2))
        (String (sextet (N.land (N.lor (N.shiftl a 4) (N.shiftr b 4)) 63))
           (String (sextet (N.land (N.shiftl b 2) 63)) "="))
  | a :: b :: c :: rest =>
      String (sextet (N.shiftr a 2))
        (String (sextet (N.land (N.lor (N.shiftl a 4) (N.shiftr b 4)) 63))
           (String (sextet (N.land (N.lor (N.shiftl b 2) (N.shiftr c 6)) 63))
              (String (sextet (N.land c 63)) (encode rest))))
  end.

End Base64.

Module Etag.

(** [len.toString(16)]. *)
Definition toString16 (n : nat) : string :=
  match n with
  | O => "0"
  | _ => HexadecimalString.NilZero.string_of_uint (N.to_hex_uint (N.of_nat n))
  end.

(** [entitytag]: the tag of a body, between double quotes. *)
Definition entitytag (entity : string) : string :=
  String JSON.dquote
    ((if String.eqb entity "" then "0-2jmj7l5rSw0yVb/vlWAYkK/YBwk"
      else toString16 (String.length entity) +:+ "-"
             +:+ String.substring 0 27 (Base64.encode (Sha1.digest entity)))
     +:+ String JSON.dquote "").

(** The two generators of Express: [etag] and [wetag]. *)
Definition etag (body : string) : string := entitytag body.
Definition wetag (body : string) : string := "W/" +:+ entitytag body.

End Etag.

(* ===================================================================== *)
(** * Conditional requests

    The [fresh] package: whether the copy a client holds is still good,
    by the validators of its request and of the response at hand. *)
(* ===================================================================== *)

Module Fresh.
Import Http.

(** White space as [\s] reads it in a header value (Latin-1 text). *)
Definition is_space (c : ascii) : bool :=
  Chars.between 9 13 c || (Chars.code c =? 32)%nat || (Chars.code c =? 160)%nat.

Fixpoint ltrim (s : string) : string :=
  match s with
  | String c rest => if is_space c then ltrim rest else s
  | EmptyString => s
  end.

Fixpoint rtrim (s : string) : string :=
  match s with
  | EmptyString => s
  | String c rest =>
      match rtrim rest with
      | EmptyString => if is_space c then "" else String c ""
      | kept => String c kept
      end
  end.

Definition trim (s : string) : string := rtrim (ltrim s).

(** [s] split at every comma. *)
Fixpoint split_commas (s : string) (piece : string) : list string :=
  match s with
  | EmptyString => [piece]
  | String c rest =>
      if Ascii.eqb c ","
      then piece :: split_commas rest ""
      else split_commas rest (piece +:+ String c "")
  end.

(** [CACHE_CONTROL_NO_CACHE_REGEXP]: some directive of the field, white
    space apart, is [no-cache]. *)
Definition no_cache (cacheControl : option string) : bool :=
  match given cacheControl with
  | Some value =>
      existsb (fun piece => String.eqb (trim piece) "no-cache") (split_commas value "")
  | None => false
  end.

(** [parseTokenList]: the tokens between the commas, without the spaces
    around them.  [token] is what has been read of the current one, [gap]
    the spaces met since its last character. *)
Fixpoint parseTokenList (s : string) (token gap : string) : list string :=
  match s with
  | EmptyString => [token]
  | String c rest =>
      if Ascii.eqb c " " then
        if String.eqb token "" then parseTokenList rest "" ""
        else parseTokenList rest token (gap +:+ " ")
      else if Ascii.eqb c "," then token :: parseTokenList rest "" ""
      else parseTokenList rest (token +:+ gap +:+ String c "") ""
  end.

(** A tag of the request matches the tag of the response, weakly. *)
Definition tag_matches (etag candidate : string) : bool :=
  String.eqb candidate etag
  || String.eqb candidate ("W/" +:+ etag)
  || String.eqb ("W/" +:+ candidate) etag.

Definition etag_stale (noneMatch etag : option string) : bool :=
  match noneMatch with
  | None => false
  | Some wanted =>
      if String.eqb wanted "*" then false
      else match given etag with
           | None => true
           | Some tag => negb (existsb (tag_matches tag) (parseTokenList wanted "" ""))
           end
  end.

(** With [If-Modified-Since] the response is stale unless it carries a
    [Last-Modified] that is no later.  No response of the application
    carries one; were one set, the package would compare the two dates as
    [Date.parse] reads them, which is not modelled: the request then
    counts as stale. *)
Definition modified_stale (modifiedSince lastModified : option string) : bool :=
  match modifiedSince with
  | None => false
  | Some _ => true
  end.

(** [fresh(reqHeaders, resHeaders)]. *)
Definition fresh (reqHeaders : gmap string string) (etag lastModified : option string)
  : bool :=
  let modifiedSince := given (reqHeaders !! "if-modified-since") in
  let noneMatch := given (reqHeaders !! "if-none-match") in
  match modifiedSince, noneMatch with
  | None, None => false
  | _, _ =>
      negb (no_cache (reqHeaders !! "cache-control"))
      && negb (etag_stale noneMatch etag)
      && negb (modified_stale modifiedSince lastModified)
  end.

End Fresh.

(* ===================================================================== *)
(** * Media types

    The [content-type] package: [res.send] reads the type a layer has set
    and writes it back with the charset of the body. *)
(* ===================================================================== *)

Module ContentType.

Definition is_token_char (c : ascii) : bool :=
  Chars.is_alnum c
  || existsb (Ascii.eqb c) (list_ascii_of_string "!#$%&'*+.^_`|~-").

Fixpoint take_token (s : string) : string * string :=
  match s with
  | String c rest =>
      if is_token_char c
      then let '(token, after) := take_token rest in (String c token, after)
      else ("", s)
  | EmptyString => ("", "")
  end.

(** [TOKEN_REGEXP]. *)
Definition is_token (s : string) : bool :=
  match take_token s with
  | (String _ _, EmptyString) => true
  | _ => false
  end.

(** [TYPE_REGEXP]: a token, a slash, a token. *)
Definition is_type (s : string) : bool :=
  match take_token s with
  | (String _ _, String c subtype) => Ascii.eqb c "/" && is_token subtype
  | _ => false
  end.

Fixpoint skip_spaces (s : string) : string :=
  match s with
  | String c rest => if Ascii.eqb c " " then skip_spaces rest else s
  | EmptyString => s
  end.

(** The characters of a quoted string, and those a backslash may quote. *)
Definition is_qdtext (c : ascii) : bool :=
  let n := Chars.code c in
  (n =? 11)%nat || (n =? 32)%nat || (n =? 33)%nat
  || Chars.between 35 91 c || Chars.between 93 126 c || (128 <=? n)%nat.

Definition is_text (c : ascii) : bool :=
  let n := Chars.code c in
  (n =? 11)%nat || Chars.between 32 126 c || (128 <=? n)%nat.

Definition is_quotable (c : ascii) : bool :=
  (Chars.code c =? 11)%nat || (32 <=? Chars.code c)%nat.

(** A quoted string after its opening quote: its text with the
    backslashes resolved, and what follows the closing quote. *)
Fixpoint read_quoted (s : string) : option (string * string) :=
  match s with
  | EmptyString => None
  | String c rest =>
      if Ascii.eqb c JSON.dquote then Some ("", rest)
      else if Ascii.eqb c "\" then
        match rest with
        | String e rest' =>
            if is_quotable e
            then '(text, after) ← read_quoted rest'; Some (String e text, after)
            else None
        | EmptyString => None
        end
      else if is_qdtext c
           then '(text, after) ← read_quoted rest; Some (String c text, after)
           else None
  end.

Fixpoint assign (key value : string) (l : list (string * string))
  : list (string * string) :=
  match l with
  | [] => [(key, value)]
  | (k, v) :: rest =>
      if String.eqb k key then (key, value) :: rest else (k, v) :: assign key value rest
  end.

(** [PARAM_REGEXP], one parameter after the other: a semicolon, a name,
    an equals sign and a value that is a token or a quoted string, with
    spaces between them.  Anything else is an invalid parameter format. *)
Fixpoint parameters (fuel : nat) (s : string) (found : list (string * string))
  : option (list (string * string)) :=
  match s, fuel with
  | EmptyString, _ => Some found
  | String c rest, S fuel' =>
      if Ascii.eqb c ";" then
        match take_token (skip_spaces rest) with
        | (EmptyString, _) => None
        | (name, after_name) =>
            match skip_spaces after_name with
            | String e after_equals =>
                if Ascii.eqb e "=" then
                  '(value, after_value) ←
                    match skip_spaces after_equals with
                    | String q quoted =>
                        if Ascii.eqb q JSON.dquote then read_quoted quoted
                        else match take_token (String q quoted) with
                             | (EmptyString, _) => None
                             | read => Some read
                             end
                    | EmptyString => None
                    end;
                  parameters fuel' (skip_spaces after_value)
                    (assign (Chars.toLowerCase name) value found)
                else None
            | EmptyString => None
            end
        end
      else None
  | String _ _, O => None
  end.

(** The header up to its first semicolon, and the rest from there. *)
Fixpoint split_type (s : string) : string * string :=
  match s with
  | EmptyString => ("", "")
  | String c rest =>
      if Ascii.eqb c ";" then ("", s)
      else let '(type, after) := split_type rest in (String c type, after)
  end.

(** [parse]: the type in lower case and the parameters; [None] is a
    thrown [TypeError]. *)
Definition parse (header : string) : option (string * list (string * string)) :=
  let '(type, rest) := split_type header in
  if is_type (Fresh.trim type)
  then found ← parameters (String.length rest) rest [];
       Some (Chars.toLowerCase (Fresh.trim type), found)
  else None.

Fixpoint escape (s : string) : string :=
  match s with
  | EmptyString => ""
  | String c rest =>
      if Ascii.eqb c JSON.dquote || Ascii.eqb c "\"
      then String "\" (String c (escape rest))
      else String c (escape rest)
  end.

(** [qstring]: a value as a token, or between quotes. *)
Definition qstring (value : string) : option string :=
  if is_token value then Some value
  else if forallb is_text (list_ascii_of_string value)
       then Some (String JSON.dquote (escape value +:+ String JSON.dquote ""))
       else None.

Fixpoint insert_sorted (p : string * string) (l : list (string * string))
  : list (string * string) :=
  match l with
  | [] => [p]
  | q :: rest => if String.leb (fst p) (fst q) then p :: l else q :: insert_sorted p rest
  end.

Fixpoint write_parameters (l : list (string * string)) : option string :=
  match l with
  | [] => Some ""
  | (name, value) :: rest =>
      written ← qstring value;
      tail ← write_parameters rest;
      Some ("; " +:+ name +:+ "=" +:+ written +:+ tail)
  end.

(** [format]: the type and its parameters, sorted by name. *)
Definition format (type : string) (found : list (string * string)) : option string :=
  tail ← write_parameters (fold_right insert_sorted [] found);
  Some (type +:+ tail).

(** [setCharset(type, 'utf-8')] of Express. *)
Definition setCharset (type : string) : option string :=
  '(parsed, found) ← parse type;
  format parsed (assign "charset" "utf-8" found).

End ContentType.

(* ===================================================================== *)
(** * Express

    The part of Express 4 and of Node's [ServerResponse] that the server
    calls: the response object and its methods, the entity tag and the
    [304] shortcut of [res.send], the router's walk over the stack of
    layers, the automatic OPTIONS reply and the final handler.  Route
    paths are literal (the server has no parameters or wildcards), and
    request targets are in origin form.

    Not tracked: the headers Node and Express add by themselves ([Date],
    [Connection], [X-Powered-By]) and the length header of the page the
    final handler renders. *)
(* ===================================================================== *)

Module Express.
Import Http.

(** The setting of the application that [res.send] reads through
    [res.app]: how it tags a body.  [express()] sets it to weak tags; a
    callback can reach and change it.  The three settings [res.json]
    passes to [JSON.stringify] (replacer, spaces, escape) are taken at
    their defaults. *)
Inductive ETagSetting : Type :=
| NoTag
| WeakTag
| StrongTag.

Record Settings : Type := { etag_setting : ETagSetting }.

(** The settings as [express()] makes them. *)
Definition defaults : Settings := {| etag_setting := WeakTag |}.

(** The mutable response object [res]; [req] is the [res.req] link,
    [app_settings] what [res.app] leads to. *)
Record Res : Type := {
  req : Request;
  app_settings : Settings;
  statusCode : nat;
  outHeaders : gmap string string;
  written : Body;
  finished : bool
}.

(** The object Node hands to the application for a new request. *)
Definition opened (s : Settings) (r : Request) : Res :=
  {| req := r; app_settings := s; statusCode := 200; outHeaders := ∅;
     written := Empty; finished := false |}.

(** The same, in an application whose settings nothing has changed. *)
Definition fresh (r : Request) : Res := opened defaults r.

Inductive Err : Type :=
| ERR_HTTP_HEADERS_SENT
| Thrown (message : string).

(** A computation on [res] returns or throws. *)
Inductive Result (A : Type) : Type :=
| Ok (a : A) (res : Res)
| Throw (err : Err) (res : Res).
Arguments Ok {A} a res.
Arguments Throw {A} err res.

Definition M (A : Type) : Type := Res -> Result A.

Definition ret {A} (a : A) : M A := fun res => Ok a res.

Definition bind {A B} (c : M A) (k : A -> M B) : M B :=
  fun res =>
    match c res with
    | Ok a res' => k a res'
    | Throw err res' => Throw err res'
    end.

Definition throw {A} (err : Err) : M A := fun res => Throw err res.

Definition get {A} (f : Res -> A) : M A := fun res => Ok (f res) res.

Definition modify (f : Res -> Res) : M unit := fun res => Ok tt (f res).

Declare Scope express_scope.
Delimit Scope express_scope with express.
Notation "x ← c ; k" := (bind c (fun x => k))
  (at level 20, c at level 100, k at level 200, only parsing) : express_scope.
Notation "c ;; k" := (bind c (fun _ => k))
  (at level 100, k at level 200, only parsing, right associativity) : express_scope.
Local Open Scope express_scope.

(** ** The response object *)

Definition with_headers (hs : gmap string string) (res : Res) : Res :=
  {| req := req res; app_settings := app_settings res; statusCode := statusCode res;
     outHeaders := hs; written := written res; finished := finished res |}.

(** [res.setHeader(name, value)]. *)
Definition setHeader (name value : string) : M unit :=
  sent ← get finished;
  if sent then throw ERR_HTTP_HEADERS_SENT
  else modify (fun res =>
    with_headers (<[Chars.toLowerCase name := value]> (outHeaders res)) res).

(** [res.removeHeader(name)]. *)
Definition removeHeader (name : string) : M unit :=
  sent ← get finished;
  if sent then throw ERR_HTTP_HEADERS_SENT
  else modify (fun res =>
    with_headers (delete (Chars.toLowerCase name) (outHeaders res)) res).

(** [res.get(name)]. *)
Definition getHeader (name : string) : M (option string) :=
  get (fun res => outHeaders res !! Chars.toLowerCase name).

Definition setStatus (code : nat) : M unit :=
  modify (fun res =>
    {| req := req res; app_settings := app_settings res; statusCode := code;
       outHeaders := outHeaders res; written := written res; finished := finished res |}).

(** [res.app.set('etag', ...)]: how a callback would change the setting.
    Neither callback of the server calls it. *)
Definition app_set (s : Settings) : M unit :=
  modify (fun res =>
    {| req := req res; app_settings := s; statusCode := statusCode res;
       outHeaders := outHeaders res; written := written res; finished := finished res |}).

(** [res.end(chunk)]: the response is complete; a second call writes
    nothing. *)
Definition end_ (chunk : Body) : M unit :=
  modify (fun res =>
    if finished res then res
    else {| req := req res; app_settings := app_settings res;
            statusCode := statusCode res; outHeaders := outHeaders res;
            written := chunk; finished := true |}).

Definition byteLength (chunk : string) : string :=
  DecimalString.NilZero.string_of_uint (Nat.to_uint (String.length chunk)).

(** The tail every reply shares: no body goes out for a HEAD request. *)
Definition finish (chunk : Body) : M unit :=
  m ← get (fun res => method (req res));
  if Method_eqb m HEAD then end_ Empty else end_ chunk.

(** [req.fresh]: for a GET or a HEAD about to be answered with a 2xx or a
    304, whether the validators of the request match the response. *)
Definition req_fresh : M bool :=
  get (fun res =>
    (Method_eqb (method (req res)) GET || Method_eqb (method (req res)) HEAD)
    && (((200 <=? statusCode res)%nat && (statusCode res <? 300)%nat)
        || (statusCode res =? 304)%nat)
    && Fresh.fresh (reqHeaders (req res))
         (outHeaders res !! "etag") (outHeaders res !! "last-modified")).

(** A status that goes without a body. *)
Definition bodiless (code : nat) : bool := (code =? 204)%nat || (code =? 304)%nat.

(** [res.send(chunk)] for a string.  HTML unless a type is set, and the
    type that is set written back with the charset (a type that does not
    parse throws); the length; the tag of the body, unless one is set or
    the setting is off; for a fresh request the status becomes 304; a
    204 or a 304 goes out without type, length and body; then the end of
    the response. *)
Definition send (chunk : string) : M unit :=
  type ← getHeader "Content-Type";
  match given type with
  | None => setHeader "Content-Type" "text/html; charset=utf-8"
  | Some t =>
      match ContentType.setCharset t with
      | Some t' => setHeader "Content-Type" t'
      | None => throw (Thrown "TypeError: invalid media type")
      end
  end ;;
  tag ← getHeader "ETag";
  setting ← get (fun res => etag_setting (app_settings res));
  setHeader "Content-Length" (byteLength chunk) ;;
  match given tag, setting with
  | None, WeakTag => setHeader "ETag" (Etag.wetag chunk)
  | None, StrongTag => setHeader "ETag" (Etag.etag chunk)
  | _, _ => ret tt
  end ;;
  is_fresh ← req_fresh;
  (if is_fresh then setStatus 304 else ret tt) ;;
  code ← get statusCode;
  if bodiless code then
    removeHeader "Content-Type" ;;
    removeHeader "Content-Length" ;;
    removeHeader "Transfer-Encoding" ;;
    finish Empty
  else finish (Text chunk).

(** [res.json(obj)]: [JSON.stringify] with the default settings, the JSON
    content type unless one is set, then [send]. *)
Definition json (obj : JSON.json) : M unit :=
  let body := JSON.stringify obj in
  type ← getHeader "Content-Type";
  match given type with
  | Some _ => ret tt
  | None => setHeader "Content-Type" "application/json; charset=utf-8"
  end ;;
  send body.

(** ** The router *)

(** A callback gets the request and [next]; [res] is the state.
    [next None] is [next()], [next (Some err)] is [next(err)]. *)
Definition Next : Type := option Err -> M unit.
Definition Handler : Type := Request -> Next -> M unit.

(** [app.use(fn)] pushes a layer that matches every path and method;
    [app.get(path, fn)] pushes a route for one path and the GET method. *)
Inductive Layer : Type :=
| Use (fn : Handler)
| Route (m : Method) (path : string) (fn : Handler).

(** [parseurl(req).pathname] for a target in origin form: the target up
    to the query string (or a fragment, should a client send one). *)
Fixpoint getPathname (target : string) : string :=
  match target with
  | EmptyString => ""
  | String c rest =>
      if Ascii.eqb c "?" || Ascii.eqb c "#" then "" else String c (getPathname rest)
  end.

(** The pattern of a route compiled without [strict]: a slash at the end
    of the pathname is optional. *)
Definition strip_slash (p : string) : string :=
  match String.length p with
  | O => p
  | S n => if String.eqb (String.substring n 1 p) "/" then String.substring 0 n p else p
  end.

Definition path_matches (pattern pathname : string) : bool :=
  String.eqb (Chars.toLowerCase (strip_slash pattern))
             (Chars.toLowerCase (strip_slash pathname)).

(** [Route.prototype._handles_method]: a GET route also answers HEAD. *)
Definition handles_method (route_method m : Method) : bool :=
  Method_eqb route_method m || (Method_eqb m HEAD && Method_eqb route_method GET).

(** [Route.prototype._options]. *)
Definition route_options (route_method : Method) : list Method :=
  if Method_eqb route_method GET then [GET; HEAD] else [route_method].

(** [Layer.prototype.handle_request]: what the callback throws goes to
    [next]. *)
Definition handle_request (fn : Handler) (r : Request) (next : Next) : M unit :=
  fun res =>
    match fn r next res with
    | Ok a res' => Ok a res'
    | Throw err res' => next (Some err) res'
    end.

(** [finalhandler]: the reply when the stack is exhausted.  A response
    already sent is left alone; without an error it is [404], with one it
    is the status of [res] if that is an error status and [500]
    otherwise.  The page is kept as the message it is rendered from (the
    pathname before it is URL-encoded and HTML-escaped), and its length
    header is not tracked. *)
Definition finalhandler (r : Request) (err : option Err) : M unit :=
  sent ← get finished;
  if sent then ret tt
  else
    code ← get statusCode;
    let '(status, message) :=
      match err with
      | None =>
          (404, "Cannot " +:+ method_name (method r) +:+ " " +:+ getPathname (url r))
      | Some _ =>
          (if (400 <=? code)%nat && (code <=? 599)%nat then code else 500,
           "Internal Server Error")
      end in
    setStatus status ;;
    setHeader "Content-Security-Policy" "default-src 'none'" ;;
    setHeader "X-Content-Type-Options" "nosniff" ;;
    setHeader "Content-Type" "text/html; charset=utf-8" ;;
    finish (ErrorPage message).

(** [sendOptionsResponse]. *)
Definition sendOptionsResponse (r : Request) (options : list Method) : M unit :=
  let body := Chars.join "," (map method_name options) in
  handle_request
    (fun _ _ => setHeader "Allow" body ;; send body) r (finalhandler r).

(** [done]: for an OPTIONS request that matched the path of some route and
    met no error, the automatic reply; the final handler otherwise. *)
Definition done (r : Request) (options : list Method) (err : option Err) : M unit :=
  match err, options with
  | None, _ :: _ =>
      if Method_eqb (method r) OPTIONS then sendOptionsResponse r options
      else finalhandler r err
  | _, _ => finalhandler r err
  end.

(** [router.handle]: [next] walks the stack.  With an error pending every
    layer is skipped (the application registers no error handler); a
    route whose path matches and whose method does not is skipped and,
    for OPTIONS, remembered. *)
Fixpoint handle (stack : list Layer) (r : Request) (options : list Method)
  (err : option Err) : M unit :=
  match stack with
  | [] => done r options err
  | layer :: rest =>
      match err with
      | Some _ => handle rest r options err
      | None =>
          match layer with
          | Use fn => handle_request fn r (handle rest r options)
          | Route m path fn =>
              if path_matches path (getPathname (url r)) then
                if handles_method m (method r)
                then handle_request fn r (handle rest r options)
                else handle rest r
                       (if Method_eqb (method r) OPTIONS
                        then options ++ route_options m else options)
                       None
              else handle rest r options None
          end
      end
  end.

(** One request through an application whose settings are [s]: the final
    state of [res]. *)
Definition dispatch (stack : list Layer) (s : Settings) (r : Request) : Res :=
  match handle stack r [] None (opened s r) with
  | Ok _ res => res
  | Throw _ res => res
  end.

(** What goes out on the wire, if the response was ever ended. *)
Definition response_of (res : Res) : option Response :=
  if finished res
  then Some {| status := statusCode res; headers := outHeaders res; body := written res |}
  else None.

(** The reply of an application whose settings nothing has changed. *)
Definition respond (stack : list Layer) (r : Request) : option Response :=
  response_of (dispatch stack defaults r).


End Express.

(* ===================================================================== *)
(** * The shared type *)
(* ===================================================================== *)

Module SharedData.

(** Modelled from the spec: the declaration of [QueryPayload] lives in the
    package [@my-namespace/simple-shared-data], whose file is not among
    the sources.  The spec gives it as "a record with a single field
    [payload] of text type". *)
Record QueryPayload : Type := { payload : string }.

(** The interface is erased when the program is compiled: at run time a
    [QueryPayload] is the plain object of its one property. *)
Definition to_json (q : QueryPayload) : JSON.json :=
  JSON.JObj [("payload", JSON.JStr (payload q))].

(** The shape the interface asks of a run-time value: an object with a
    property [payload] that is a string. *)
Definition conforms (v : JSON.json) : bool :=
  match v with
  | JSON.JObj fields =>
      match JSON.get_own "payload" fields with
      | Some (JSON.JStr _) => true
      | _ => false
      end
  | _ => false
  end.

End SharedData.

(* ===================================================================== *)
(** * packages/simple-express-server/server.ts *)
(* ===================================================================== *)

Module Server.
Import Http Express SharedData.
Local Open Scope express_scope.

(** [const port = 3001;] *)
Definition port : nat := 3001.

(** [app.use((_req, res, next) => { res.setHeader("Access-Control-Allow-Origin", "*"); next(); })] *)
Definition allow_any_origin : Handler :=
  fun _req next =>
    (* Allow any website to connect *)
    setHeader "Access-Control-Allow-Origin" "*" ;;
    (* Continue to next middleware *)
    next None.

(** The object literal of the route callback. *)
Definition responseData : QueryPayload :=
  {| payload := Lodash.snakeCase "Server data returned successfully" |}.

(** [app.get("/", (_req, res) => { const responseData: QueryPayload = {...}; res.json(responseData); })] *)
Definition get_root : Handler :=
  fun _req _next => json (to_json responseData).

(** [const app = express();] after the two registrations, in order. *)
Definition app : list Layer :=
  [Use allow_any_origin; Route GET "/" get_root].

(** The line the [app.listen] callback logs once the server is up. *)
Definition listening_message : string :=
  "Example app listening at http://localhost:"
    +:+ DecimalString.NilZero.string_of_uint (Nat.to_uint port).

(** The module-level bindings: both are [const] and nothing else is
    declared at module level.  The object [app] is bound to is mutable:
    besides the stack of layers, fixed once the module is loaded, it
    holds the settings, which every callback can reach through its
    [res]. *)
Record Bindings : Type := {
  module_port : nat;
  module_app : list Layer;
  module_settings : Settings
}.

Definition loaded : Bindings :=
  {| module_port := port; module_app := app; module_settings := defaults |}.

(** One request served by the running module: the reply, and the module
    the next request finds, with the settings as the callbacks left
    them. *)
Definition serve (m : Bindings) (r : Request) : Bindings * option Response :=
  let res := dispatch (module_app m) (module_settings m) r in
  ({| module_port := module_port m; module_app := module_app m;
      module_settings := app_settings res |},
   response_of res).

(** The requests of [rs] served one after the other. *)
Fixpoint serve_all (m : Bindings) (rs : list Request)
  : Bindings * list (option Response) :=
  match rs with
  | [] => (m, [])
  | r :: rest =>
      let '(m1, reply) := serve m r in
      let '(m2, replies) := serve_all m1 rest in
      (m2, reply :: replies)
  end.

(** The reply to [r] from a server that has served [earlier] first. *)
Definition reply_after (earlier : list Request) (r : Request) : option Response :=
  snd (serve (fst (serve_all loaded earlier)) r).

End Server.

(* ===================================================================== *)
(** * The browser: promises, [fetch], [console.log] *)
(* ===================================================================== *)

Module Browser.
Import Http.

(** What a variable of the click handler can hold. *)
Inductive Value : Type :=
| Undefined
| OfJson (j : JSON.json).

(** Why a promise of the chain is rejected. *)
Inductive Reason : Type :=
| FetchFailed        (* TypeError: Failed to fetch *)
| JsonSyntaxError    (* SyntaxError, from response.json() *)
| NullProperty.      (* TypeError: Cannot read properties of null *)

(** The second argument of [fetch]; [{}] sets nothing. *)
Record RequestInit : Type := {
  init_method : option Method;
  init_body : option string;
  init_signal : bool
}.

Definition emptyInit : RequestInit :=
  {| init_method := None; init_body := None; init_signal := false |}.

(** The effects the page can observe. *)
Inductive Event : Type :=
| Requested (target : string) (init : RequestInit)
| Logged (v : Value).

(** What the network does with a request: it fails, it brings a
    response, or nothing ever comes back. *)
Inductive FetchOutcome : Type :=
| Failed
| Replied (r : Response)
| Silent.

Definition Network : Type := string -> RequestInit -> FetchOutcome.

Inductive Settled (A : Type) : Type :=
| Fulfilled (a : A)
| Rejected (why : Reason)
| Pending.
Arguments Fulfilled {A} a.
Arguments Rejected {A} why.
Arguments Pending {A}.

(** A promise, as a computation over the events so far. *)
Definition Promise (A : Type) : Type := list Event -> list Event * Settled A.

Definition resolve {A} (a : A) : Promise A := fun log => (log, Fulfilled a).
Definition reject {A} (why : Reason) : Promise A := fun log => (log, Rejected why).

(** [p.then(f)]: [f] runs on fulfilment; a rejection, or a promise that
    never settles, passes through. *)
Definition then_ {A B} (p : Promise A) (f : A -> Promise B) : Promise B :=
  fun log =>
    match p log with
    | (log', Fulfilled a) => f a log'
    | (log', Rejected why) => (log', Rejected why)
    | (log', Pending) => (log', Pending)
    end.

(** [p.catch(g)]: the one way to handle a rejection.  The click handler
    never calls it. *)
Definition catch_ {A} (p : Promise A) (g : Reason -> Promise A) : Promise A :=
  fun log =>
    match p log with
    | (log', Rejected why) => g why log'
    | settled => settled
    end.

(** [fetch(target, init)]: one request goes out. *)
Definition fetch (net : Network) (target : string) (init : RequestInit)
  : Promise Response :=
  fun log =>
    (log ++ [Requested target init],
     match net target init with
     | Failed => Rejected FetchFailed
     | Replied r => Fulfilled r
     | Silent => Pending
     end).

(** The text of a body: its bytes decoded as UTF-8, a byte-order mark at
    the start left out. *)
Definition utf8_decode (chunk : string) : string :=
  match chunk with
  | String a (String b (String c rest)) =>
      if (Chars.code a =? 239)%nat && (Chars.code b =? 187)%nat
         && (Chars.code c =? 191)%nat
      then rest else chunk
  | _ => chunk
  end.

(** The body of a response read as JSON; an empty body and an HTML page
    are no JSON text. *)
Definition json_of (r : Response) : option JSON.json :=
  match body r with
  | Text chunk => JSON.parse (utf8_decode chunk)
  | Empty => JSON.parse ""
  | ErrorPage _ => None
  end.

(** [response.json()]. *)
Definition response_json (r : Response) : Promise JSON.json :=
  match json_of r with
  | Some v => resolve v
  | None => reject JsonSyntaxError
  end.

(** [data.payload]: reading the property throws on [null]; an object
    gives its own property; any other value, and an object without the
    property, gives [undefined] (no prototype defines [payload]). *)
Definition payload_of (data : JSON.json) : Promise Value :=
  match data with
  | JSON.JNull => reject NullProperty
  | JSON.JObj fields =>
      match JSON.get_own "payload" fields with
      | Some v => resolve (OfJson v)
      | None => resolve Undefined
      end
  | _ => resolve Undefined
  end.

(** A value without a property [payload] of its own. *)
Definition lacks_payload (v : JSON.json) : bool :=
  match v with
  | JSON.JObj fields =>
      match JSON.get_own "payload" fields with
      | Some _ => false
      | None => true
      end
  | _ => true
  end.

(** [console.log(v)]. *)
Definition console_log (v : Value) : Promise unit :=
  fun log => (log ++ [Logged v], Fulfilled tt).

End Browser.

(* ===================================================================== *)
(** * packages/simple-react-app/src/App.tsx: the button *)
(* ===================================================================== *)

Module Client.
Import Http Browser.

(** The address the handler fetches. *)
Definition endpoint : string := "http://localhost:3001/".

(** [fetch("http://localhost:3001/", {})
       .then((response) => response.json())
       .then((data: QueryPayload) => console.log(data.payload));]
    The annotation on [data] is erased: the callback runs on whatever
    value the body parsed to. *)
Definition onClick (net : Network) : Promise unit :=
  then_ (then_ (fetch net endpoint emptyInit)
               (fun response => response_json response))
        (fun data => then_ (payload_of data) console_log).

(** One click on a page that has done nothing yet: the events it causes,
    and the rejection nothing handles, if the chain ends in one.  The
    handler drops the promise, so no one else can handle it. *)
Record Click : Type := { events : list Event; unhandled : option Reason }.

Definition click (net : Network) : Click :=
  match onClick net [] with
  | (log, Rejected why) => {| events := log; unhandled := Some why |}
  | (log, _) => {| events := log; unhandled := None |}
  end.

Definition requests (log : list Event) : list (string * RequestInit) :=
  flat_map (fun e => match e with Requested t i => [(t, i)] | Logged _ => [] end) log.

Definition logs (log : list Event) : list Value :=
  flat_map (fun e => match e with Logged v => [v] | Requested _ _ => [] end) log.

(** The button pressed once for each element of [nets], one click settled
    before the next, each with the network as it is at that moment.  The
    handler keeps no promise: all that is left of a click is what it
    added to the events. *)
Fixpoint clicks (nets : list Network) (log : list Event) : list Event :=
  match nets with
  | [] => log
  | net :: later => clicks later (fst (onClick net log))
  end.

End Client.

(* ===================================================================== *)
(** * From the button to the server *)
(* ===================================================================== *)

Module Url.

Record Url : Type := {
  scheme : string;
  host : string;
  port : nat;
  target : string
}.

(** [s] cut at the first [c]: what precedes it, and what follows it if it
    occurs. *)
Fixpoint cut (c : ascii) (s : string) : string * option string :=
  match s with
  | EmptyString => ("", None)
  | String a rest =>
      if Ascii.eqb a c then ("", Some rest)
      else let '(before, after) := cut c rest in (String a before, after)
  end.

Definition decimal (digits : string) : option nat :=
  match digits with
  | EmptyString => None
  | _ => Nat.of_uint <$> DecimalString.NilZero.uint_of_string digits
  end.

(** An absolute [http:] address: the host, the port (80 when none is
    written) and the request target (the root when none is written). *)
Definition parse (address : string) : option Url :=
  if String.prefix "http://" address then
    let rest := String.substring 7 (String.length address - 7) address in
    let '(authority, path) := cut "/" rest in
    let '(h, p) := cut ":" authority in
    n ← match p with
        | None | Some EmptyString => Some 80
        | Some digits => decimal digits
        end;
    Some {| scheme := "http"; host := h; port := n;
            target := match path with
                      | None => "/"
                      | Some after => String "/" after
                      end |}
  else None.

End Url.

Module Wire.
Import Http Browser.

(** The origin of the page the button is on. *)
Record Origin : Type := { o_scheme : string; o_host : string; o_port : nat }.

Definition same_origin (page : Origin) (u : Url.Url) : bool :=
  String.eqb (o_scheme page) (Url.scheme u)
  && String.eqb (o_host page) (Url.host u)
  && (o_port page =? Url.port u)%nat.

Definition serialize (page : Origin) : string :=
  o_scheme page +:+ "://" +:+ o_host page +:+ ":"
    +:+ DecimalString.NilZero.string_of_uint (Nat.to_uint (o_port page)).

(** The check the browser makes before it lets a page read a response
    from another origin. *)
Definition cors_allows (page : Origin) (u : Url.Url) (r : Response) : bool :=
  same_origin page u
  || match header "Access-Control-Allow-Origin" r with
     | Some allowed => String.eqb allowed "*" || String.eqb allowed (serialize page)
     | None => false
     end.

(** The network of a machine on which the server module runs and nothing
    else listens: a request to the server's port reaches the
    application, any other fails.  The request is the one [fetch] makes
    for a simple request (GET unless [init] says otherwise); of the
    header fields a browser sends with it none is a cache validator
    (the cache of the browser is not modelled). *)
Definition network_to (m : Server.Bindings) (page : Origin) : Network :=
  fun address init =>
    match Url.parse address with
    | None => Failed
    | Some u =>
        if String.eqb (Url.host u) "localhost" && (Url.port u =? Server.module_port m)%nat
        then
          let request :=
            {| method := default GET (init_method init);
               url := Url.target u;
               reqHeaders := ∅;
               content := default "" (init_body init) |} in
          match snd (Server.serve m request) with
          | Some r => if cors_allows page u r then Replied r else Failed
          | None => Silent
          end
        else Failed
    end.

End Wire.

(* ===================================================================== *)
(** * The imports and exports of the packages *)
(* ===================================================================== *)

Module Packages.

Inductive TsType : Type :=
| TString
| TNumber
| TBoolean.

(** A type declaration: an interface and its fields. *)
Inductive Decl : Type :=
| Interface (fields : list (string * TsType)).

Inductive Imported : Type :=
| DefaultExport
| Named (name : string)
| SideEffect.

(** [import <what> from "<from>"], bound to [local] in the file. *)
Record Import : Type := { what : Imported; local : string; from : string }.

Record SourceFile : Type := {
  path : string;
  imports : list Import;
  type_exports : list (string * Decl)
}.

(** [packages/simple-express-server/server.ts], lines 1 to 5.  The file
    has no [export]. *)
Definition server_ts : SourceFile :=
  {| path := "packages/simple-express-server/server.ts";
     imports :=
       [ {| what := DefaultExport; local := "express"; from := "express" |};
         {| what := DefaultExport; local := "_"; from := "lodash" |};
         {| what := Named "QueryPayload"; local := "QueryPayload";
            from := "@my-namespace/simple-shared-data" |} ];
     type_exports := [] |}.

(** [packages/simple-react-app/src/App.tsx].  Its one export is the
    component, a value. *)
Definition App_tsx : SourceFile :=
  {| path := "packages/simple-react-app/src/App.tsx";
     imports :=
       [ {| what := DefaultExport; local := "React"; from := "react" |};
         {| what := DefaultExport; local := "logo"; from := "./logo.svg" |};
         {| what := SideEffect; local := ""; from := "./App.css" |};
         {| what := DefaultExport; local := "_"; from := "lodash" |};
         {| what := Named "QueryPayload"; local := "QueryPayload";
            from := "simple-express-server/server" |};
         {| what := DefaultExport; local := "DarkMode";
            from := "./react-dark-mode/src/DarkMode" |} ];
     type_exports := [] |}.

(** Modelled from the spec: the entry file of the package
    [@my-namespace/simple-shared-data] is not among the sources.  The
    spec has it publish the one declaration [QueryPayload], "a record
    with a single field [payload] of text type". *)
Definition shared_data : SourceFile :=
  {| path := "packages/simple-shared-data";
     imports := [];
     type_exports := [("QueryPayload", Interface [("payload", TString)])] |}.

(** Module resolution in the workspace: a package by its name, a file
    under [packages/] by its path from there ([baseUrl] is
    [./packages]). *)
Definition workspace : list (string * SourceFile) :=
  [ ("@my-namespace/simple-shared-data", shared_data);
    ("simple-express-server/server", server_ts) ].

Fixpoint lookup {A} (key : string) (table : list (string * A)) : option A :=
  match table with
  | [] => None
  | (k, a) :: rest => if String.eqb k key then Some a else lookup key rest
  end.

Definition import_of (name : string) (f : SourceFile) : option Import :=
  List.find (fun i => String.eqb (local i) name) (imports f).

(** The declaration a type name imported by [f] denotes, with the file
    that declares it: the import must name an export of the file its
    specifier resolves to. *)
Definition resolve (f : SourceFile) (name : string) : option (string * Decl) :=
  i ← import_of name f;
  match what i with
  | Named exported =>
      g ← lookup (from i) workspace;
      d ← lookup exported (type_exports g);
      Some (path g, d)
  | _ => None
  end.

End Packages.

(* ===================================================================== *)
(** * Reference values *)
(* ===================================================================== *)

Module Expected.
Import Http.

Definition in_quotes (s : string) : string :=
  String JSON.dquote s +:+ String JSON.dquote "".

(** The text [{"payload":"server_data_returned_successfully"}]. *)
Definition wire_body : string :=
  "{" +:+ in_quotes "payload" +:+ ":"
      +:+ in_quotes "server_data_returned_successfully" +:+ "}".

(** The weak tag [res.send] gives that text. *)
Definition root_etag : string := "W/" +:+ in_quotes "2f-0eFnsE4FmJhhCAeaMGolGEkhPP0".

(** The reply to a GET of the root, as the model tracks it. *)
Definition root_reply : Response :=
  {| status := 200;
     headers :=
       <["etag" := root_etag]>
         (<["content-length" := "47"]>
            (<["content-type" := "application/json; charset=utf-8"]>
               (<["access-control-allow-origin" := "*"]> ∅)));
     body := Text wire_body |}.

(** A request as the button makes it. *)
Definition plain_get : Request :=
  {| method := GET; url := "/"; reqHeaders := ∅; content := "" |}.

(** The same endpoint asked with a query string and a body. *)
Definition busy_get : Request :=
  {| method := GET; url := "/?verbose=1"; reqHeaders := ∅; content := "ignored" |}.

(** A body that is the JSON text [null]. *)
Definition null_reply : Response :=
  {| status := 200; headers := ∅; body := Text "null" |}.

(** A body that is the JSON text of an empty object. *)
Definition empty_object_reply : Response :=
  {| status := 200; headers := ∅; body := Text "{}" |}.

End Expected.

(* ===================================================================== *)
(** * README.md: the server and the button as first given *)
(* ===================================================================== *)

Module Readme.
Import Http Express Browser.

(** Lines 84 to 96, [app.get("/data", (req, res) => { res.json({ foo: "bar" }); })]:
    one route, and no layer before it. *)
Definition get_data : Handler :=
  fun _req _next => json (JSON.JObj [("foo", JSON.JStr "bar")]).

Definition app : list Layer := [Route GET "/data" get_data].

Definition loaded : Server.Bindings :=
  {| Server.module_port := 3001; Server.module_app := app;
     Server.module_settings := defaults |}.

(** Lines 173 to 177, the [onClick] of the first button:
    [fetch("http://localhost:3001/", {}).then((response) => response.json())
       .then((data) => console.log(data));] *)
Definition onClick (net : Network) : Promise unit :=
  then_ (then_ (fetch net "http://localhost:3001/" emptyInit)
               (fun response => response_json response))
        (fun data => console_log (OfJson data)).

Definition click (net : Network) : Client.Click :=
  match onClick net [] with
  | (log, Rejected why) => {| Client.events := log; Client.unhandled := Some why |}
  | (log, _) => {| Client.events := log; Client.unhandled := None |}
  end.

End Readme.

(* ===================================================================== *)
(** * More reference values *)
(* ===================================================================== *)

Module Variants.
Import Http Express Expected.



(** Whether the validators of a request match the reply of the root
    route: the client holds a copy that is still good. *)
Definition revalidates (r : Request) : bool :=
  Fresh.fresh (reqHeaders r) (Some root_etag) None.

(** The three header fields the freshness test reads. *)
Definition validators (r : Request) : list (option string) :=
  [reqHeaders r !! "if-none-match"; reqHeaders r !! "if-modified-since";
   reqHeaders r !! "cache-control"].

(** The reply to a GET or a HEAD of the root from a client whose copy is
    still good: no body, no type and no length. *)
Definition not_modified : Response :=
  {| status := 304;
     headers :=
       <["etag" := root_etag]> (<["access-control-allow-origin" := "*"]> ∅);
     body := Empty |}.

(** The reply to a HEAD of the root: the GET reply without its body. *)
Definition head_reply : Response :=
  {| status := 200; headers := headers root_reply; body := Empty |}.

(** The automatic reply to an OPTIONS of the root. *)
Definition options_reply : Response :=
  {| status := 200;
     headers :=
       <["etag" := "W/" +:+ in_quotes "8-ZRAf8oNBS3Bjb/SU2GYZCmbtmXg"]>
         (<["content-length" := "8"]>
            (<["content-type" := "text/html; charset=utf-8"]>
               (<["allow" := "GET,HEAD"]>
                  (<["access-control-allow-origin" := "*"]> ∅))));
     body := Text "GET,HEAD" |}.

(** The headers of a 404 of the final handler. *)
Definition not_found_headers : gmap string string :=
  <["content-type" := "text/html; charset=utf-8"]>
    (<["x-content-type-options" := "nosniff"]>
       (<["content-security-policy" := "default-src 'none'"]>
          (<["access-control-allow-origin" := "*"]> ∅))).

(** The 404 of the final handler for a request: the page names the method
    and the pathname; a HEAD gets no body. *)
Definition not_found (r : Request) : Response :=
  {| status := 404;
     headers := not_found_headers;
     body := if Method_eqb (method r) HEAD then Empty
             else ErrorPage ("Cannot " +:+ method_name (method r) +:+ " "
                               +:+ getPathname (url r)) |}.

(** The reply each request is due, by its pathname, its method and its
    validators. *)
Definition reply_to (r : Request) : Response :=
  if path_matches "/" (getPathname (url r)) then
    match method r with
    | GET => if revalidates r then not_modified else root_reply
    | HEAD => if revalidates r then not_modified else head_reply
    | OPTIONS => options_reply
    | _ => not_found r
    end
  else not_found r.

(** The module with the route as its only layer. *)
Definition route_only : Server.Bindings :=
  {| Server.module_port := Server.port;
     Server.module_app := [Route GET "/" Server.get_root];
     Server.module_settings := defaults |}.

(** The address of the server, as the button's address parses. *)
Definition server_url : Url.Url :=
  {| Url.scheme := "http"; Url.host := "localhost"; Url.port := 3001; Url.target := "/" |}.

(** The reply of the route when no layer runs before it. *)
Definition bare_reply : Response :=
  {| status := 200;
     headers :=
       <["etag" := root_etag]>
         (<["content-length" := "47"]>
            (<["content-type" := "application/json; charset=utf-8"]> ∅));
     body := Text wire_body |}.

(** A payload with a tab, a double quote, a backslash and a control
    character in it. *)
Definition awkward : SharedData.QueryPayload :=
  {| SharedData.payload :=
       "a" +:+ String (ascii_of_N 9) "b" +:+ String JSON.dquote "c\d"
           +:+ String (ascii_of_N 1) "e" |}.

Definition awkward_reply : Response :=
  {| status := 200; headers := ∅;
     body := Text (JSON.stringify (SharedData.to_json awkward)) |}.

(** The page the React development server hands out. *)
Definition dev_page : Wire.Origin :=
  {| Wire.o_scheme := "http"; Wire.o_host := "localhost"; Wire.o_port := 3000 |}.

(** Other requests for the root. *)
Definition root_options : Request :=
  {| method := OPTIONS; url := "/"; reqHeaders := ∅; content := "" |}.

Definition root_post : Request :=
  {| method := POST; url := "/"; reqHeaders := ∅; content := "payload=1" |}.

Definition root_head : Request :=
  {| method := HEAD; url := "/"; reqHeaders := ∅; content := "" |}.

(** A GET of the root from a client that holds the reply and names its
    tag, as a cache does when it revalidates. *)
Definition revalidating_get : Request :=
  {| method := GET; url := "/";
     reqHeaders := <["if-none-match" := root_etag]> ∅; content := "" |}.

(** A GET of the root that accepts any copy. *)
Definition any_tag_get : Request :=
  {| method := GET; url := "/"; reqHeaders := <["if-none-match" := "*"]> ∅;
     content := "" |}.

(** The revalidating request of a client that reloads: the tag, and
    [Cache-Control: no-cache]. *)
Definition reloading_get : Request :=
  {| method := GET; url := "/?again";
     reqHeaders :=
       <["cache-control" := "no-cache"]> (<["if-none-match" := root_etag]> ∅);
     content := "" |}.

(** A route callback that, unlike the server's, switches the tags off
    once it has replied, and the module that routes the root to it. *)
Definition untagging_root : Handler :=
  fun _req _next =>
    (json (SharedData.to_json Server.responseData) ;;
     app_set {| etag_setting := NoTag |})%express.

Definition untagging : Server.Bindings :=
  {| Server.module_port := Server.port;
     Server.module_app := [Use Server.allow_any_origin; Route GET "/" untagging_root];
     Server.module_settings := defaults |}.

(** The payload text under an error status. *)
Definition failed_reply : Response :=
  {| status := 500; headers := ∅; body := Text wire_body |}.

Definition plain_reply : Response :=
  {| status := 200; headers := ∅; body := Text wire_body |}.

End Variants.

(* ===================================================================== *)
(** * The JSON reader and its fuel *)
(* ===================================================================== *)

Section JsonFacts.
Import JSON.

Abbreviation len := String.length.

Lemma skip_ws_length (s : string) : len (skip_ws s) <= len s.
Proof.
  induction s as [|c s IH]; cbn [skip_ws]; [lia|].
  destruct (is_ws c); cbn [String.length]; lia.
Qed.

Lemma take_digits_length (s ds r : string) :
  take_digits s = (ds, r) -> len s = len ds + len r.
Proof.
  revert ds r. induction s as [|c s IH]; intros ds r; cbn [take_digits].
  - intros [= <- <-]. reflexivity.
  - destruct (Chars.is_digit c).
    + destruct (take_digits s) as [ds' r'] eqn:E. intros [= <- <-].
      cbn [String.length]. rewrite (IH ds' r' eq_refl). lia.
    + intros [= <- <-]. reflexivity.
Qed.

Lemma read_digits_length (s ds r : string) :
  read_digits s = Some (ds, r) -> len r < len s.
Proof.
  unfold read_digits. destruct (take_digits s) as [ds' r'] eqn:E.
  apply take_digits_length in E.
  destruct ds' as [|d ds']; [discriminate|]. intros [= <- <-].
  cbn [String.length] in E. lia.
Qed.

Lemma read_int_length (s i r : string) :
  read_int s = Some (i, r) -> len r < len s.
Proof.
  destruct s as [|c s]; cbn [read_int]; [discriminate|].
  destruct (Ascii.eqb c "0"); [intros [= <- <-]; cbn; lia|].
  destruct (Chars.is_digit c); [|discriminate].
  destruct (take_digits s) as [ds r'] eqn:E. apply take_digits_length in E.
  intros [= <- <-]. cbn [String.length]. lia.
Qed.

Lemma read_frac_length (s f r : string) :
  read_frac s = Some (f, r) -> len r <= len s.
Proof.
  destruct s as [|c s]; cbn [read_frac]; [intros [= <- <-]; lia|].
  destruct (Ascii.eqb c ".").
  - destruct (read_digits s) as [[ds r']|] eqn:E; [|discriminate].
    apply read_digits_length in E. cbn. intros [= <- <-]. cbn. lia.
  - intros [= <- <-]. lia.
Qed.

Lemma read_sign_length (s sign r : string) :
  read_sign s = (sign, r) -> len r <= len s.
Proof.
  destruct s as [|c s]; cbn [read_sign]; [intros [= <- <-]; lia|].
  destruct (_ || _); intros [= <- <-]; cbn; lia.
Qed.

Lemma read_exp_length (s e r : string) :
  read_exp s = Some (e, r) -> len r <= len s.
Proof.
  destruct s as [|c s]; cbn [read_exp]; [intros [= <- <-]; lia|].
  destruct (_ || _).
  - destruct (read_sign s) as [sign r1] eqn:E1. apply read_sign_length in E1.
    destruct (read_digits r1) as [[ds r2]|] eqn:E2; [|discriminate].
    apply read_digits_length in E2. cbn. intros [= <- <-]. cbn. lia.
  - intros [= <- <-]. lia.
Qed.

Lemma read_number_length (s l r : string) :
  read_number s = Some (l, r) -> len r < len s.
Proof.
  unfold read_number.
  destruct (read_minus s) as [sign s0] eqn:E0.
  assert (len s0 <= len s) as H0.
  { destruct s as [|c s]; cbn [read_minus] in E0; [injection E0 as <- <-; lia|].
    destruct (Ascii.eqb c "-"); injection E0 as <- <-; cbn; lia. }
  destruct (read_int s0) as [[i s1]|] eqn:E1; [|discriminate].
  apply read_int_length in E1. cbn.
  destruct (read_frac s1) as [[f s2]|] eqn:E2; [|discriminate].
  apply read_frac_length in E2. cbn.
  destruct (read_exp s2) as [[e s3]|] eqn:E3; [|discriminate].
  apply read_exp_length in E3. cbn. intros [= <- <-]. lia.
Qed.

Lemma read_pieces_length_upto (n : nat) :
  forall s ps r, len s <= n -> read_pieces s = Some (ps, r) -> len r < len s.
Proof.
  induction n as [|n IH]; intros s ps r Hn;
    (destruct s as [|c s]; cbn [read_pieces]; [discriminate|]);
    cbn [String.length] in Hn; [lia|].
  destruct (Ascii.eqb c dquote); [intros [= <- <-]; cbn; lia|].
  destruct (Ascii.eqb c "\").
  - destruct s as [|e s]; [discriminate|].
    destruct (Ascii.eqb e "u").
    + destruct s as [|h1 [|h2 [|h3 [|h4 s]]]]; try discriminate.
      destruct (hex4 h1 h2 h3 h4); [|discriminate]. cbn.
      destruct (read_pieces s) as [[ps' r']|] eqn:E; [|discriminate].
      apply IH in E; [|cbn in Hn; lia]. cbn. intros [= <- <-]. cbn. lia.
    + destruct (escape_char e); [|discriminate]. cbn.
      destruct (read_pieces s) as [[ps' r']|] eqn:E; [|discriminate].
      apply IH in E; [|cbn in Hn; lia]. cbn. intros [= <- <-]. cbn. lia.
  - destruct (_ <? _)%N; [discriminate|].
    destruct (read_pieces s) as [[ps' r']|] eqn:E; [|discriminate].
    apply IH in E; [|lia]. cbn. intros [= <- <-]. cbn. lia.
Qed.

Lemma read_pieces_length (s : string) (ps : list piece) (r : string) :
  read_pieces s = Some (ps, r) -> len r < len s.
Proof. apply (read_pieces_length_upto (len s)). lia. Qed.

Lemma read_string_length (s x r : string) :
  read_string s = Some (x, r) -> len r < len s.
Proof.
  unfold read_string.
  destruct (read_pieces s) as [[ps r']|] eqn:E; [|discriminate].
  apply read_pieces_length in E. cbn. intros [= <- <-]. exact E.
Qed.

Lemma strip_prefix_length (word s r : string) :
  strip_prefix word s = Some r -> len s = len word + len r.
Proof.
  revert s. induction word as [|a word IH]; intros s; cbn [strip_prefix].
  - intros [= <-]. reflexivity.
  - destruct s as [|b s]; [discriminate|].
    destruct (Ascii.eqb a b); [|discriminate].
    intros H. apply IH in H. cbn [String.length]. lia.
Qed.

Lemma expect_length (word : string) (v v' : json) (s r : string) :
  expect word v s = Some (v', r) -> len s = len word + len r.
Proof.
  unfold expect. destruct (strip_prefix word s) as [rest|] eqn:E; [|discriminate].
  cbn. intros [= <- <-]. exact (strip_prefix_length _ _ _ E).
Qed.

Lemma read_close_length (close : ascii) (s r : string) :
  read_close close s = Some r -> len r < len s.
Proof.
  unfold read_close. pose proof (skip_ws_length s) as Hws.
  destruct (skip_ws s) as [|c rest]; [discriminate|].
  destruct (Ascii.eqb c close); [|discriminate].
  intros [= <-]. cbn [String.length] in Hws. lia.
Qed.

Lemma read_separator_comma (close : ascii) (s r : string) :
  read_separator close s = Comma r -> len r < len s.
Proof.
  unfold read_separator. pose proof (skip_ws_length s) as Hws.
  destruct (skip_ws s) as [|c rest]; [discriminate|].
  cbn [String.length] in Hws.
  destruct (Ascii.eqb c ","); [intros [= <-]; lia|].
  destruct (Ascii.eqb c close); discriminate.
Qed.

Lemma read_separator_close (close : ascii) (s r : string) :
  read_separator close s = Close r -> len r < len s.
Proof.
  unfold read_separator. pose proof (skip_ws_length s) as Hws.
  destruct (skip_ws s) as [|c rest]; [discriminate|].
  cbn [String.length] in Hws.
  destruct (Ascii.eqb c ","); [discriminate|].
  destruct (Ascii.eqb c close); [intros [= <-]; lia|discriminate].
Qed.

Lemma read_key_length (s key r : string) :
  read_key s = Some (key, r) -> len r + 2 < len s.
Proof.
  unfold read_key. pose proof (skip_ws_length s) as Hws.
  destruct (skip_ws s) as [|c rest]; [discriminate|].
  cbn [String.length] in Hws.
  destruct (Ascii.eqb c dquote); [|discriminate].
  destruct (read_string rest) as [[k r1]|] eqn:E; [|discriminate].
  apply read_string_length in E. cbn.
  pose proof (skip_ws_length r1) as Hws1.
  destruct (skip_ws r1) as [|c' r2]; [discriminate|].
  cbn [String.length] in Hws1.
  destruct (Ascii.eqb c' ":"); [|discriminate].
  intros [= <- <-]. lia.
Qed.

(** Uses the equations in the context to take, in the goal, the branch the
    hypothesis took. *)
Ltac same_branch :=
  repeat match goal with
         | H : ?x = _ |- context [?x] => rewrite H
         end.

Lemma value_step (fuel : nat) :
  items_settle fuel -> members_settle fuel -> value_settles (S fuel).
Proof.
  intros IHi IHm s v rest. cbn [read_value].
  pose proof (skip_ws_length s) as Hws.
  destruct (skip_ws s) as [|c r] eqn:Ews; [discriminate|].
  cbn [String.length] in Hws.
  destruct (Ascii.eqb c "n") eqn:En;
    [|destruct (Ascii.eqb c "t") eqn:Et;
      [|destruct (Ascii.eqb c "f") eqn:Ef;
        [|destruct (Ascii.eqb c dquote) eqn:Eq;
          [|destruct (Ascii.eqb c "[") eqn:Ea;
            [|destruct (Ascii.eqb c "{") eqn:Eo]]]]].
  1-3: intros H; pose proof (expect_length _ _ _ _ _ H) as Hl;
       cbn [String.length] in Hl; (split; [lia|]);
       intros [|fuel'] Hf; [lia|]; cbn [read_value]; same_branch; reflexivity.
  - destruct (read_string r) as [[str rest']|] eqn:Es; [|discriminate].
    cbn. intros [= <- <-]. apply read_string_length in Es as Hl.
    split; [lia|]. intros [|fuel'] Hf; [lia|].
    cbn [read_value]. same_branch. reflexivity.
  - destruct (read_close "]" r) as [rest'|] eqn:Ec.
    + intros [= <- <-]. apply read_close_length in Ec as Hl.
      split; [lia|]. intros [|fuel'] Hf; [lia|].
      cbn [read_value]. same_branch. reflexivity.
    + destruct (read_items fuel r) as [[items rest']|] eqn:Ei; [|discriminate].
      cbn. intros [= <- <-]. destruct (IHi _ _ _ Ei) as [Hl Hfuel].
      split; [lia|]. intros [|fuel'] Hf; [lia|].
      cbn [read_value]. rewrite Ews, En, Et, Ef, Eq, Ea, Ec.
      rewrite (Hfuel fuel') by lia. reflexivity.
  - destruct (read_close "}" r) as [rest'|] eqn:Ec.
    + intros [= <- <-]. apply read_close_length in Ec as Hl.
      split; [lia|]. intros [|fuel'] Hf; [lia|].
      cbn [read_value]. same_branch. reflexivity.
    + destruct (read_members fuel [] r) as [[fields rest']|] eqn:Em; [|discriminate].
      cbn. intros [= <- <-]. destruct (IHm _ _ _ _ Em) as [Hl Hfuel].
      split; [lia|]. intros [|fuel'] Hf; [lia|].
      cbn [read_value]. rewrite Ews, En, Et, Ef, Eq, Ea, Eo, Ec.
      rewrite (Hfuel fuel') by lia. reflexivity.
  - destruct (read_number (String c r)) as [[literal rest']|] eqn:Enum; [|discriminate].
    cbn. intros [= <- <-]. apply read_number_length in Enum as Hl.
    cbn [String.length] in Hl.
    split; [lia|]. intros [|fuel'] Hf; [lia|].
    cbn [read_value]. rewrite Ews, En, Et, Ef, Eq, Ea, Eo, Enum. reflexivity.
Qed.

Lemma items_step (fuel : nat) :
  value_settles fuel -> items_settle fuel -> items_settle (S fuel).
Proof.
  intros IHv IHi s vs rest. cbn [read_items].
  destruct (read_value fuel s) as [[v r]|] eqn:Ev; [|discriminate]. cbn.
  destruct (IHv _ _ _ Ev) as [Hl Hfuel].
  destruct (read_separator "]" r) as [r'|rest'|] eqn:Esep; [| |discriminate].
  - apply read_separator_comma in Esep as Hs.
    destruct (read_items fuel r') as [[vs' rest']|] eqn:Ei; [|discriminate].
    cbn. intros [= <- <-]. destruct (IHi _ _ _ Ei) as [Hl' Hfuel'].
    split; [lia|]. intros [|fuel'] Hf; [lia|].
    cbn [read_items]. rewrite (Hfuel fuel') by lia. cbn. rewrite Esep.
    rewrite (Hfuel' fuel') by lia. reflexivity.
  - apply read_separator_close in Esep as Hs. intros [= <- <-].
    split; [lia|]. intros [|fuel'] Hf; [lia|].
    cbn [read_items]. rewrite (Hfuel fuel') by lia. cbn. rewrite Esep. reflexivity.
Qed.

Lemma members_step (fuel : nat) :
  value_settles fuel -> members_settle fuel -> members_settle (S fuel).
Proof.
  intros IHv IHm acc s fs rest. cbn [read_members].
  destruct (read_key s) as [[key r]|] eqn:Ek; [|discriminate]. cbn.
  apply read_key_length in Ek as Hk.
  destruct (read_value fuel r) as [[v r']|] eqn:Ev; [|discriminate]. cbn.
  destruct (IHv _ _ _ Ev) as [Hl Hfuel].
  destruct (read_separator "}" r') as [r''|rest'|] eqn:Esep; [| |discriminate].
  - apply read_separator_comma in Esep as Hs. intros Hm.
    destruct (IHm _ _ _ _ Hm) as [Hl' Hfuel'].
    split; [lia|]. intros [|fuel'] Hf; [lia|].
    cbn [read_members]. rewrite Ek. cbn. rewrite (Hfuel fuel') by lia. cbn.
    rewrite Esep. apply Hfuel'. lia.
  - apply read_separator_close in Esep as Hs. intros [= <- <-].
    split; [lia|]. intros [|fuel'] Hf; [lia|].
    cbn [read_members]. rewrite Ek. cbn. rewrite (Hfuel fuel') by lia. cbn.
    rewrite Esep. reflexivity.
Qed.

Lemma reader_settles (fuel : nat) :
  value_settles fuel /\ items_settle fuel /\ members_settle fuel.
Proof.
  induction fuel as [|fuel (IHv & IHi & IHm)].
  - split; [|split]; red; cbn; intros; discriminate.
  - split; [apply value_step; assumption|].
    split; [apply items_step; assumption|apply members_step; assumption].
Qed.

(** The fuel [parse] gives is enough: a text that some amount of fuel
    reads is read by [parse], with the same value. *)
Lemma parse_fuel_enough (fuel : nat) (text : string) (v : json) (rest : string) :
  read_value fuel text = Some (v, rest) ->
  skip_ws rest = "" ->
  parse text = Some v.
Proof.
  intros H Hrest. destruct (reader_settles fuel) as (Hv & _).
  destruct (Hv _ _ _ H) as [Hl Hfuel].
  unfold parse. rewrite (Hfuel (2 * len text + 2)) by lia.
  cbn. rewrite Hrest. reflexivity.
Qed.

End JsonFacts.

(* ===================================================================== *)
(** * The server *)
(* ===================================================================== *)

Section ServerFacts.
Import Http Express SharedData Expected Variants.

(** The JSON type [res.json] sets is written back by [res.send] as it
    is. *)
Lemma json_type_kept :
  ContentType.setCharset "application/json; charset=utf-8"
  = Some "application/json; charset=utf-8".
Proof. vm_compute. reflexivity. Qed.

(** [res.json] in closed form, on a response that is open and has no
    type yet: the type and the length, the tag unless one is set or the
    setting is off, then the status and what a 204 or a 304 strips. *)
Lemma json_sends (obj : JSON.json) (res : Res) :
  finished res = false ->
  outHeaders res !! "content-type" = None ->
  let body := JSON.stringify obj in
  let typed :=
    <["content-length" := byteLength body]>
      (<["content-type" := "application/json; charset=utf-8"]> (outHeaders res)) in
  let tagged :=
    match given (outHeaders res !! "etag"), etag_setting (app_settings res) with
    | None, WeakTag => <["etag" := Etag.wetag body]> typed
    | None, StrongTag => <["etag" := Etag.etag body]> typed
    | _, _ => typed
    end in
  let code :=
    if (Method_eqb (method (req res)) GET || Method_eqb (method (req res)) HEAD)
       && (((200 <=? statusCode res)%nat && (statusCode res <? 300)%nat)
           || (statusCode res =? 304)%nat)
       && Fresh.fresh (reqHeaders (req res))
            (tagged !! "etag") (tagged !! "last-modified")
    then 304 else statusCode res in
  json obj res
  = Ok tt {| req := req res; app_settings := app_settings res; statusCode := code;
             outHeaders :=
               if bodiless code
               then delete "transfer-encoding"
                      (delete "content-length" (delete "content-type" tagged))
               else tagged;
             written :=
               if bodiless code || Method_eqb (method (req res)) HEAD
               then Empty else Text body;
             finished := true |}.
Proof.
  destruct res as [rq st code hs w fin].
  cbn [finished outHeaders req app_settings statusCode].
  intros -> Htype. cbv zeta.
  unfold json, send, finish, req_fresh, setHeader, removeHeader, getHeader, setStatus,
    end_, bind, get, modify, throw, ret, with_headers.
  change (Chars.toLowerCase "Content-Type") with "content-type".
  change (Chars.toLowerCase "Content-Length") with "content-length".
  change (Chars.toLowerCase "Transfer-Encoding") with "transfer-encoding".
  change (Chars.toLowerCase "ETag") with "etag".
  cbn [req app_settings statusCode outHeaders written finished].
  rewrite Htype. cbn [given].
  cbn [req app_settings statusCode outHeaders written finished].
  rewrite lookup_insert_eq. cbn [given]. rewrite json_type_kept.
  cbn [req app_settings statusCode outHeaders written finished].
  rewrite insert_insert_eq.
  rewrite (lookup_insert_ne _ "content-type" "etag") by discriminate.
  destruct (given (hs !! "etag")) as [preset|] eqn:Htag;
    [|destruct (etag_setting st) eqn:Hset];
    cbn [req app_settings statusCode outHeaders written finished];
    match goal with
    | |- context [Fresh.fresh ?a ?b ?c] =>
        generalize (Fresh.fresh a b c); intros is_fresh
    end;
    destruct (Method_eqb (method rq) GET || Method_eqb (method rq) HEAD);
    destruct (((200 <=? code)%nat && (code <? 300)%nat) || (code =? 304)%nat);
    destruct is_fresh; cbn [andb];
    cbn [req app_settings statusCode outHeaders written finished];
    change (bodiless 304) with true; cbn [orb];
    try (destruct (bodiless code));
    cbn [req app_settings statusCode outHeaders written finished orb];
    destruct (Method_eqb (method rq) HEAD);
    cbn [req app_settings statusCode outHeaders written finished];
    reflexivity.
Qed.


(** The freshness test reads three fields of the request and no other. *)
Lemma fresh_reads_validators (fields fields' : gmap string string)
  (etag lastModified : option string) :
  fields !! "if-none-match" = fields' !! "if-none-match" ->
  fields !! "if-modified-since" = fields' !! "if-modified-since" ->
  fields !! "cache-control" = fields' !! "cache-control" ->
  Fresh.fresh fields etag lastModified = Fresh.fresh fields' etag lastModified.
Proof. unfold Fresh.fresh. intros -> -> ->. reflexivity. Qed.

(** A request without [If-None-Match] is never fresh: the reply carries
    no [Last-Modified] for an [If-Modified-Since] to meet. *)
Lemma fresh_needs_a_tag (fields : gmap string string) (etag : option string) :
  fields !! "if-none-match" = None ->
  Fresh.fresh fields etag None = false.
Proof.
  unfold Fresh.fresh. intros ->. cbn [given].
  destruct (given (fields !! "if-modified-since")); [|reflexivity].
  cbn [Fresh.modified_stale Fresh.etag_stale negb]. apply andb_false_r.
Qed.

(** A request that names the tag of the payload, or accepts any copy,
    and says nothing else about caching, is fresh. *)
Lemma fresh_when_tag_named (fields : gmap string string) (wanted : string) :
  fields !! "if-none-match" = Some wanted ->
  wanted = "*" \/ wanted = root_etag ->
  fields !! "if-modified-since" = None ->
  fields !! "cache-control" = None ->
  Fresh.fresh fields (Some root_etag) None = true.
Proof.
  unfold Fresh.fresh. intros -> Hwanted -> ->.
  destruct Hwanted as [-> | ->]; vm_compute; reflexivity.
Qed.

(** The walk for a GET or a HEAD of the root: the middleware, then the
    route callback. *)
Lemma walk_root (m : Method) (u : string) (fields : gmap string string) (c : string) :
  m = GET \/ m = HEAD ->
  path_matches "/" (getPathname u) = true ->
  let r := {| method := m; url := u; reqHeaders := fields; content := c |} in
  handle Server.app r [] None (fresh r)
  = Ok tt {| req := r; app_settings := defaults; statusCode := status (reply_to r);
             outHeaders := headers (reply_to r); written := body (reply_to r);
             finished := true |}.
Proof.
  intros Hm Hp r.
  unfold Server.app. cbn [handle]. subst r. cbn [method url]. rewrite Hp.
  replace (handles_method GET m) with true by (destruct Hm as [-> | ->]; reflexivity).
  unfold handle_request, Server.allow_any_origin, Server.get_root.
  unfold setHeader at 1; unfold bind at 1 2; unfold get at 1; cbn [finished fresh opened].
  unfold modify at 1, with_headers at 1.
  change (Chars.toLowerCase "Access-Control-Allow-Origin")
    with "access-control-allow-origin".
  cbn [req app_settings statusCode outHeaders written finished fresh opened].
  rewrite json_sends by reflexivity.
  cbv zeta.
  cbn [req app_settings statusCode outHeaders written finished].
  match goal with
  | |- context [Fresh.fresh ?h ?e ?l] =>
      replace e with (Some root_etag) by (vm_compute; reflexivity);
      replace l with (@None string) by (vm_compute; reflexivity)
  end.
  unfold reply_to, revalidates. cbn [reqHeaders method url]. rewrite Hp.
  destruct Hm as [-> | ->]; destruct (Fresh.fresh fields (Some root_etag) None);
    vm_compute; reflexivity.
Qed.

(** The walk over the stack, request by request: it always returns, the
    response it leaves is the one [reply_to] names, and the settings of
    the application are as it found them. *)
Lemma walk_table (r : Request) :
  handle Server.app r [] None (fresh r)
  = Ok tt {| req := r; app_settings := defaults; statusCode := status (reply_to r);
             outHeaders := headers (reply_to r); written := body (reply_to r);
             finished := true |}.
Proof.
  destruct r as [m u fields c].
  destruct (path_matches "/" (getPathname u)) eqn:Hp.
  - destruct m; try (apply walk_root; auto; fail);
      unfold reply_to, Server.app; cbn [handle method url]; rewrite Hp;
      vm_compute; reflexivity.
  - unfold reply_to, Server.app. cbn [handle method url]. rewrite Hp.
    destruct m; vm_compute; reflexivity.
Qed.

(** One request served by the module as it is loaded: the reply of the
    table, and the module unchanged, neither callback having touched the
    settings. *)
Lemma serve_loaded (r : Request) :
  Server.serve Server.loaded r = (Server.loaded, Some (reply_to r)).
Proof.
  unfold Server.serve, dispatch.
  cbn [Server.loaded Server.module_app Server.module_settings Server.module_port].
  change (opened defaults r) with (fresh r). rewrite walk_table.
  unfold response_of. cbn [app_settings finished statusCode outHeaders written].
  destruct (reply_to r); reflexivity.
Qed.

(** Serving requests leaves the module as it was loaded. *)
Lemma serve_all_keeps_module (rs : list Request) :
  fst (Server.serve_all Server.loaded rs) = Server.loaded.
Proof.
  induction rs as [|r rs IH]; [reflexivity|].
  cbn [Server.serve_all]. rewrite serve_loaded.
  destruct (Server.serve_all Server.loaded rs) as [m2 replies].
  exact IH.
Qed.

Lemma reply_table (earlier : list Request) (r : Request) :
  Server.reply_after earlier r = Some (reply_to r).
Proof.
  unfold Server.reply_after. rewrite serve_all_keeps_module, serve_loaded. reflexivity.
Qed.

(** The reply due to a GET of the root. *)
Lemma reply_to_root (r : Request) :
  method r = GET -> getPathname (url r) = "/" ->
  reply_to r = if revalidates r then not_modified else root_reply.
Proof. unfold reply_to. intros -> ->. reflexivity. Qed.

(** C1, as the claim has it, fails on a GET of the root, without body and
    without query, from a client that holds the reply and names its tag
    in [If-None-Match]: Express answers 304 and sends no body. *)
Lemma revalidating_get_gets_no_body :
  method revalidating_get = GET
  /\ url revalidating_get = "/"
  /\ content revalidating_get = ""
  /\ reqHeaders revalidating_get !! "if-none-match" = Some root_etag
  /\ Server.reply_after [] revalidating_get = Some not_modified
  /\ status not_modified = 304
  /\ body not_modified = Empty
  /\ ~ (exists reply,
          Server.reply_after [] revalidating_get = Some reply
          /\ status reply = 200
          /\ body reply = Text wire_body).
Proof.
  assert (Server.reply_after [] revalidating_get = Some not_modified) as Hreply
    by (rewrite reply_table; reflexivity).
  repeat split; try (vm_compute; reflexivity); try exact Hreply.
  intros (reply & H & Hstatus & _). rewrite Hreply in H.
  injection H as <-. discriminate Hstatus.
Qed.

(** C1, amended.  Every GET request to the root endpoint, whatever its
    query string and body and whatever the server has served before, is
    answered with status 200, the tag of the body and the body
    [{"payload":"server_data_returned_successfully"}], unless its
    validators match that tag, and then with a 304 that has no body.  A
    request without [If-None-Match] never matches; one that names the
    tag, or [*], and says nothing else about caching, does.  The text of
    the body parses to an object with the single field [payload], a
    string, whose value is the snake-case form of "Server data returned
    successfully". *)
Theorem root_get_replies_with_payload (earlier : list Request) (r : Request) :
  method r = GET -> getPathname (url r) = "/" ->
  exists reply,
    Server.reply_after earlier r = Some reply
    /\ (Fresh.fresh (reqHeaders r) (Some root_etag) None = false ->
        status reply = 200
        /\ body reply = Text wire_body
        /\ header "ETag" reply = Some root_etag)
    /\ (Fresh.fresh (reqHeaders r) (Some root_etag) None = true ->
        status reply = 304 /\ body reply = Empty)
    /\ (reqHeaders r !! "if-none-match" = None ->
        Fresh.fresh (reqHeaders r) (Some root_etag) None = false)
    /\ (forall wanted : string,
          reqHeaders r !! "if-none-match" = Some wanted ->
          wanted = "*" \/ wanted = root_etag ->
          reqHeaders r !! "if-modified-since" = None ->
          reqHeaders r !! "cache-control" = None ->
          Fresh.fresh (reqHeaders r) (Some root_etag) None = true)
    /\ JSON.parse wire_body
       = Some (JSON.JObj
                 [("payload",
                   JSON.JStr (Lodash.snakeCase "Server data returned successfully"))])
    /\ Lodash.snakeCase "Server data returned successfully"
       = "server_data_returned_successfully".
Proof.
  intros Hm Hp. exists (reply_to r). split; [apply reply_table|].
  rewrite (reply_to_root r Hm Hp). unfold revalidates.
  split; [intros ->; repeat split; vm_compute; reflexivity|].
  split; [intros ->; split; reflexivity|].
  split; [apply fresh_needs_a_tag|].
  split; [intros wanted; apply fresh_when_tag_named|].
  split; vm_compute; reflexivity.
Qed.

(** The request of the button, after a busier one has been served. *)
Lemma root_get_replies_with_payload_plain :
  exists reply,
    Server.reply_after [busy_get] plain_get = Some reply
    /\ (Fresh.fresh (reqHeaders plain_get) (Some root_etag) None = false ->
        status reply = 200
        /\ body reply = Text wire_body
        /\ header "ETag" reply = Some root_etag)
    /\ (Fresh.fresh (reqHeaders plain_get) (Some root_etag) None = true ->
        status reply = 304 /\ body reply = Empty)
    /\ (reqHeaders plain_get !! "if-none-match" = None ->
        Fresh.fresh (reqHeaders plain_get) (Some root_etag) None = false)
    /\ (forall wanted : string,
          reqHeaders plain_get !! "if-none-match" = Some wanted ->
          wanted = "*" \/ wanted = root_etag ->
          reqHeaders plain_get !! "if-modified-since" = None ->
          reqHeaders plain_get !! "cache-control" = None ->
          Fresh.fresh (reqHeaders plain_get) (Some root_etag) None = true)
    /\ JSON.parse wire_body
       = Some (JSON.JObj
                 [("payload",
                   JSON.JStr (Lodash.snakeCase "Server data returned successfully"))])
    /\ Lodash.snakeCase "Server data returned successfully"
       = "server_data_returned_successfully".
Proof.
  apply (root_get_replies_with_payload [busy_get] plain_get); reflexivity.
Defined.






(** C6, as the claim has it, fails on two GET requests of the root of
    which one accepts any copy ([If-None-Match: *]): that one gets the 304
    without a body, the other the 200 with the payload. *)
Lemma replies_differ_by_validator :
  method plain_get = GET /\ url plain_get = "/"
  /\ method any_tag_get = GET /\ url any_tag_get = "/"
  /\ Server.reply_after [] plain_get = Some root_reply
  /\ Server.reply_after [] any_tag_get = Some not_modified
  /\ Server.reply_after [] plain_get <> Server.reply_after [] any_tag_get.
Proof.
  assert (Server.reply_after [] plain_get = Some root_reply) as H1
    by (rewrite reply_table; reflexivity).
  assert (Server.reply_after [] any_tag_get = Some not_modified) as H2
    by (rewrite reply_table; reflexivity).
  repeat split; try reflexivity; try assumption.
  rewrite H1, H2. intros H. injection H as H _. discriminate H.
Qed.

(** The settings are state a callback can leave behind.  Were the route
    callback to switch the tags off once it has replied, the second
    request would get another reply than the first. *)
Lemma a_changed_setting_shows_later :
  snd (Server.serve untagging plain_get)
  <> snd (Server.serve (fst (Server.serve untagging plain_get)) plain_get).
Proof. vm_compute. intros H. discriminate H. Qed.

(** C6, amended.  Two GET requests to the root that carry the same
    cache validators ([If-None-Match], [If-Modified-Since],
    [Cache-Control]) get the same reply, whatever their query strings,
    their bodies and their other header fields, and whatever the server
    served before each of them; both callbacks leave the settings of the
    application alone, so that serving requests leaves the module as it
    was loaded. *)
Theorem replies_independent_of_request_and_history
  (earlier1 earlier2 : list Request) (r1 r2 : Request) :
  method r1 = GET -> getPathname (url r1) = "/" ->
  method r2 = GET -> getPathname (url r2) = "/" ->
  validators r1 = validators r2 ->
  Server.reply_after earlier1 r1 = Server.reply_after earlier2 r2
  /\ is_Some (Server.reply_after earlier1 r1)
  /\ fst (Server.serve_all Server.loaded earlier1) = Server.loaded.
Proof.
  intros Hm1 Hp1 Hm2 Hp2 Hv. unfold validators in Hv. injection Hv as Hnone Hsince Hcache.
  rewrite !reply_table, (reply_to_root r1 Hm1 Hp1), (reply_to_root r2 Hm2 Hp2).
  unfold revalidates.
  rewrite (fresh_reads_validators _ _ _ _ Hnone Hsince Hcache).
  split; [reflexivity|]. split; [eexists; reflexivity|].
  apply serve_all_keeps_module.
Qed.

(** A first plain request and a later one with a query string and a body. *)
Lemma replies_independent_of_request_and_history_plain :
  Server.reply_after [] plain_get = Server.reply_after [plain_get; busy_get] busy_get
  /\ is_Some (Server.reply_after [] plain_get)
  /\ fst (Server.serve_all Server.loaded []) = Server.loaded.
Proof.
  apply (replies_independent_of_request_and_history [] [plain_get; busy_get]
           plain_get busy_get); reflexivity.
Defined.

End ServerFacts.

(* ===================================================================== *)
(** * The click handler *)
(* ===================================================================== *)

Section ClientFacts.
Import Http Browser Client Expected.

(** The chain, one stage at a time. *)
Lemma click_failed (net : Network) :
  net endpoint emptyInit = Failed ->
  click net = {| events := [Requested endpoint emptyInit]; unhandled := Some FetchFailed |}.
Proof. intros H. unfold click, onClick, then_, fetch. rewrite H. reflexivity. Qed.

Lemma click_silent (net : Network) :
  net endpoint emptyInit = Silent ->
  click net = {| events := [Requested endpoint emptyInit]; unhandled := None |}.
Proof. intros H. unfold click, onClick, then_, fetch. rewrite H. reflexivity. Qed.

Lemma click_not_json (net : Network) (resp : Response) :
  net endpoint emptyInit = Replied resp -> json_of resp = None ->
  click net = {| events := [Requested endpoint emptyInit]; unhandled := Some JsonSyntaxError |}.
Proof.
  intros H Hj. unfold click, onClick, then_, fetch, response_json.
  rewrite H, Hj. reflexivity.
Qed.

Lemma click_json (net : Network) (resp : Response) (v : JSON.json) :
  net endpoint emptyInit = Replied resp -> json_of resp = Some v ->
  click net
  = match payload_of v [Requested endpoint emptyInit] with
    | (log, Fulfilled x) => {| events := log ++ [Logged x]; unhandled := None |}
    | (log, Rejected why) => {| events := log; unhandled := Some why |}
    | (log, Pending) => {| events := log; unhandled := None |}
    end.
Proof.
  intros H Hj. unfold click, onClick, then_, fetch, response_json.
  rewrite H, Hj. cbn [app resolve].
  destruct (payload_of v [Requested endpoint emptyInit]) as [log [x| why |]];
    reflexivity.
Qed.

(** C5.  A click sends exactly one request, to the server's address and
    with the empty options (no abort signal, hence no timeout); the
    payload is logged once the response has come and parsed, and it is
    the [payload] property of the parsed body; a request that fails, a
    body that is no JSON, and any other rejection of the chain reach no
    handler and end as an unhandled rejection with nothing logged; a
    request that is never answered is neither retried nor timed out. *)
Theorem click_requests_once_and_handles_no_failure (net : Network) :
  requests (events (click net)) = [(endpoint, emptyInit)]
  /\ init_signal emptyInit = false
  /\ (net endpoint emptyInit = Failed ->
      logs (events (click net)) = [] /\ unhandled (click net) = Some FetchFailed)
  /\ (net endpoint emptyInit = Silent ->
      logs (events (click net)) = [] /\ unhandled (click net) = None)
  /\ (forall resp,
        net endpoint emptyInit = Replied resp -> json_of resp = None ->
        logs (events (click net)) = []
        /\ unhandled (click net) = Some JsonSyntaxError)
  /\ (forall resp fields v,
        net endpoint emptyInit = Replied resp ->
        json_of resp = Some (JSON.JObj fields) ->
        JSON.get_own "payload" fields = Some v ->
        events (click net) = [Requested endpoint emptyInit; Logged (OfJson v)]
        /\ unhandled (click net) = None)
  /\ (forall why,
        snd (onClick net []) = Rejected why ->
        logs (events (click net)) = [] /\ unhandled (click net) = Some why).
Proof.
  split.
  { destruct (net endpoint emptyInit) as [|resp|] eqn:H.
    - rewrite (click_failed net H). reflexivity.
    - destruct (json_of resp) as [v|] eqn:Hj.
      + rewrite (click_json net resp v H Hj).
        destruct v as [| b | n | s | items | fields]; try reflexivity.
        cbn [payload_of]. destruct (JSON.get_own "payload" fields); reflexivity.
      + rewrite (click_not_json net resp H Hj). reflexivity.
    - rewrite (click_silent net H). reflexivity. }
  split; [reflexivity|].
  split; [intros H; rewrite (click_failed net H); split; reflexivity|].
  split; [intros H; rewrite (click_silent net H); split; reflexivity|].
  split; [intros resp H Hj; rewrite (click_not_json net resp H Hj); split; reflexivity|].
  split.
  { intros resp fields v H Hj Hget. rewrite (click_json net resp _ H Hj).
    cbn [payload_of]. rewrite Hget. split; reflexivity. }
  intros why Hrej.
  destruct (net endpoint emptyInit) as [|resp|] eqn:H.
  - rewrite (click_failed net H) in *. unfold onClick, then_, fetch in Hrej.
    rewrite H in Hrej. cbn in Hrej. injection Hrej as <-. split; reflexivity.
  - destruct (json_of resp) as [v|] eqn:Hj.
    + rewrite (click_json net resp v H Hj).
      unfold onClick, then_, fetch, response_json in Hrej. rewrite H, Hj in Hrej.
      cbn [resolve] in Hrej.
      destruct v as [| b | n | s | items | fields]; cbn in Hrej |- *;
        try discriminate Hrej.
      * injection Hrej as <-. split; reflexivity.
      * destruct (JSON.get_own "payload" fields); cbn in Hrej; discriminate Hrej.
    + rewrite (click_not_json net resp H Hj).
      unfold onClick, then_, fetch, response_json in Hrej. rewrite H, Hj in Hrej.
      cbn in Hrej. injection Hrej as <-. split; reflexivity.
  - unfold onClick, then_, fetch in Hrej. rewrite H in Hrej. discriminate Hrej.
Qed.

(** A click while nothing answers on the network. *)
Lemma click_requests_once_and_handles_no_failure_offline :
  logs (events (click (fun _ _ => Failed))) = []
  /\ unhandled (click (fun _ _ => Failed)) = Some FetchFailed.
Proof.
  apply (proj1 (proj2 (proj2
           (click_requests_once_and_handles_no_failure (fun _ _ => Failed))))).
  reflexivity.
Defined.

(** C10, as the claim has it, fails on a body that is [null]: it parses,
    it has no [payload], and reading [data.payload] throws; nothing is
    logged and the rejection is unhandled. *)
Lemma null_body_is_not_logged :
  json_of null_reply = Some JSON.JNull
  /\ lacks_payload JSON.JNull = true
  /\ logs (events (click (fun _ _ => Replied null_reply))) = []
  /\ unhandled (click (fun _ _ => Replied null_reply)) = Some NullProperty
  /\ ~ (logs (events (click (fun _ _ => Replied null_reply))) = [Undefined]
        /\ unhandled (click (fun _ _ => Replied null_reply)) = None).
Proof.
  repeat split; try (vm_compute; reflexivity).
  intros [H _]. vm_compute in H. discriminate H.
Qed.

(** C10, amended.  The callback runs on whatever the body parsed to, with
    no check of its shape.  When that value is not [null] and has no
    [payload], the click logs [undefined] and nothing is rejected; when
    it is [null], reading the property throws, nothing is logged and the
    rejection is unhandled. *)
Theorem shapeless_body_logs_undefined
  (net : Network) (resp : Response) (v : JSON.json) :
  net endpoint emptyInit = Replied resp ->
  json_of resp = Some v ->
  lacks_payload v = true ->
  (v <> JSON.JNull ->
   events (click net) = [Requested endpoint emptyInit; Logged Undefined]
   /\ unhandled (click net) = None)
  /\ (v = JSON.JNull ->
      events (click net) = [Requested endpoint emptyInit]
      /\ unhandled (click net) = Some NullProperty).
Proof.
  intros H Hj Hlacks. rewrite (click_json net resp v H Hj).
  destruct v as [| b | n | s | items | fields]; cbn [payload_of];
    (split; [intros Hnn | intros Hn]); try discriminate Hn;
    try (split; reflexivity); try (exfalso; apply Hnn; reflexivity).
  cbn [lacks_payload] in Hlacks.
  destruct (JSON.get_own "payload" fields); [discriminate Hlacks|].
  split; reflexivity.
Qed.

(** A reply whose body is the empty object. *)
Lemma shapeless_body_logs_undefined_empty_object :
  events (click (fun _ _ => Replied empty_object_reply))
  = [Requested endpoint emptyInit; Logged Undefined]
  /\ unhandled (click (fun _ _ => Replied empty_object_reply)) = None.
Proof.
  apply (proj1 (shapeless_body_logs_undefined
                  (fun _ _ => Replied empty_object_reply) empty_object_reply
                  (JSON.JObj []) eq_refl eq_refl eq_refl)).
  discriminate.
Defined.

End ClientFacts.

(* ===================================================================== *)
(** * The button against the running server *)
(* ===================================================================== *)

Section Contract.
Import Http Express SharedData Browser Client Expected Variants.

(** The phrase has neither camelCase nor digits nor punctuation: lodash
    reads its words with [asciiWords]. *)
Lemma phrase_has_plain_words :
  Lodash.hasUnicodeWord "Server data returned successfully" = false.
Proof. reflexivity. Qed.

Lemma endpoint_parses :
  Url.parse endpoint
  = Some {| Url.scheme := "http"; Url.host := "localhost";
            Url.port := 3001; Url.target := "/" |}.
Proof. vm_compute. reflexivity. Qed.

(** On a machine where the server runs, the request of the click gets the
    reply of the root route, whatever page it comes from. *)
Lemma network_reaches_root (page : Wire.Origin) :
  Wire.network_to Server.loaded page endpoint emptyInit = Replied root_reply.
Proof.
  unfold Wire.network_to. rewrite endpoint_parses.
  cbn [Url.host Url.port Url.target Server.loaded Server.module_port
       init_method init_body emptyInit default].
  change (String.eqb "localhost" "localhost" && (3001 =? Server.port)%nat) with true.
  cbn iota.
  change {| method := GET; url := "/"; reqHeaders := ∅; content := "" |} with plain_get.
  fold Server.loaded. rewrite serve_loaded. cbn [snd].
  change (reply_to plain_get) with root_reply.
  unfold Wire.cors_allows.
  replace (header "Access-Control-Allow-Origin" root_reply) with (Some "*")
    by (vm_compute; reflexivity).
  change (String.eqb "*" "*") with true.
  rewrite orb_true_l, orb_true_r. reflexivity.
Qed.

Lemma root_reply_parses :
  json_of root_reply = Some (to_json Server.responseData).
Proof. vm_compute. reflexivity. Qed.

(** C3.  Every value of the shared type, as the object it is at run
    time, passes the shape check of [QueryPayload] and has a string under
    [payload]; for every GET of the root the body the server sends parses
    back to the object the route callback built, which passes the check
    (the one reply without a body is the 304 to a client whose copy is
    still good); and a click on a page of any origin, against the running
    server, reads [data.payload] as that string and logs it. *)
Theorem server_payload_fits_client_shape :
  (forall (q : QueryPayload) (log : list Event),
      conforms (to_json q) = true
      /\ payload_of (to_json q) log
         = (log, Fulfilled (OfJson (JSON.JStr (payload q)))))
  /\ (forall (earlier : list Request) (r : Request),
        method r = GET -> getPathname (url r) = "/" ->
        exists reply,
          Server.reply_after earlier r = Some reply
          /\ json_of reply
             = (if Fresh.fresh (reqHeaders r) (Some root_etag) None
                then None else Some (to_json Server.responseData))
          /\ conforms (to_json Server.responseData) = true)
  /\ (forall page : Wire.Origin,
        click (Wire.network_to Server.loaded page)
        = {| events :=
               [Requested endpoint emptyInit;
                Logged (OfJson (JSON.JStr "server_data_returned_successfully"))];
             unhandled := None |}).
Proof.
  split; [intros q log; split; reflexivity|]. split.
  - intros earlier r Hm Hp. exists (reply_to r).
    split; [apply reply_table|]. rewrite (reply_to_root r Hm Hp). unfold revalidates.
    split; [|reflexivity].
    destruct (Fresh.fresh (reqHeaders r) (Some root_etag) None);
      [reflexivity|exact root_reply_parses].
  - intros page.
    rewrite (click_json _ root_reply _ (network_reaches_root page) root_reply_parses).
    reflexivity.
Qed.

(** The request of the button on a server that has served nothing yet. *)
Lemma server_payload_fits_client_shape_plain :
  exists reply,
    Server.reply_after [] plain_get = Some reply
    /\ json_of reply = Some (to_json Server.responseData)
    /\ conforms (to_json Server.responseData) = true.
Proof.
  apply (proj1 (proj2 server_payload_fits_client_shape) [] plain_get); reflexivity.
Defined.


End Contract.

(* ===================================================================== *)
(** * The shared declaration *)
(* ===================================================================== *)

Section Sharing.
Import Packages.

(** C7.  The two imports of [QueryPayload] do not name the same module.
    The server's import resolves to the declaration the shared package
    publishes; the client's names [simple-express-server/server], a file
    that exports nothing, and resolves to no declaration. *)
Theorem client_import_finds_no_declaration :
  resolve server_ts "QueryPayload"
  = Some ("packages/simple-shared-data", Interface [("payload", TString)])
  /\ (from <$> import_of "QueryPayload" server_ts)
     = Some "@my-namespace/simple-shared-data"
  /\ (from <$> import_of "QueryPayload" App_tsx)
     = Some "simple-express-server/server"
  /\ type_exports server_ts = []
  /\ resolve App_tsx "QueryPayload" = None.
Proof. repeat split. Qed.

End Sharing.

(* ===================================================================== *)
(** * Every request, by method, target and validators *)
(* ===================================================================== *)

Section Routing.
Import Http Express SharedData Expected Variants.



(** X2.  A HEAD of the root is answered like the GET of the same target
    with the same header fields, body left out: the two replies have the
    same status (200, or 304 for both) and the same headers, the length
    of the body the GET gets among them, and the reply to the HEAD has no
    body. *)
Theorem head_mirrors_get
  (earlier : list Request) (target : string) (fields : gmap string string)
  (sent sent' : string) :
  getPathname target = "/" ->
  exists g h,
    Server.reply_after earlier
      {| method := GET; url := target; reqHeaders := fields; content := sent |} = Some g
    /\ Server.reply_after earlier
         {| method := HEAD; url := target; reqHeaders := fields; content := sent' |}
       = Some h
    /\ status h = status g
    /\ headers h = headers g
    /\ body h = Empty
    /\ (status g = 200 -> header "Content-Length" h = Some "47").
Proof.
  intros Hp. eexists; eexists. rewrite !reply_table.
  split; [reflexivity|]. split; [reflexivity|].
  unfold reply_to, revalidates. cbn [method url reqHeaders]. rewrite Hp.
  change (path_matches "/" "/") with true. cbn iota.
  destruct (Fresh.fresh fields (Some root_etag) None);
    repeat split; try reflexivity; intros H; discriminate H.
Qed.

Lemma head_mirrors_get_query :
  exists g h,
    Server.reply_after []
      {| method := GET; url := "/?a=1"; reqHeaders := ∅; content := "" |} = Some g
    /\ Server.reply_after []
         {| method := HEAD; url := "/?a=1"; reqHeaders := ∅; content := "" |} = Some h
    /\ status h = status g
    /\ headers h = headers g
    /\ body h = Empty
    /\ (status g = 200 -> header "Content-Length" h = Some "47").
Proof.
  apply (head_mirrors_get [] "/?a=1" ∅ "" ""). reflexivity.
Defined.

(** X3.  An OPTIONS of the root is answered by Express itself, not by the
    route callback: a 200 with the methods the route allows, [GET,HEAD],
    in the [Allow] header and in the body, still under the header of the
    middleware; the body is no JSON. *)
Theorem options_lists_get_and_head (earlier : list Request) (r : Request) :
  method r = OPTIONS -> getPathname (url r) = "/" ->
  exists reply,
    Server.reply_after earlier r = Some reply
    /\ status reply = 200
    /\ header "Allow" reply = Some "GET,HEAD"
    /\ header "Access-Control-Allow-Origin" reply = Some "*"
    /\ body reply = Text "GET,HEAD"
    /\ Browser.json_of reply = None.
Proof.
  intros Hm Hp. exists options_reply. rewrite reply_table.
  unfold reply_to. rewrite Hm, Hp.
  repeat split; vm_compute; reflexivity.
Qed.

Lemma options_lists_get_and_head_root :
  exists reply,
    Server.reply_after [] root_options = Some reply
    /\ status reply = 200
    /\ header "Allow" reply = Some "GET,HEAD"
    /\ header "Access-Control-Allow-Origin" reply = Some "*"
    /\ body reply = Text "GET,HEAD"
    /\ Browser.json_of reply = None.
Proof.
  apply (options_lists_get_and_head [] root_options); reflexivity.
Defined.

(** X4.  The reply depends on the request through its method, its target
    and its three cache validators alone: the body and the other header
    fields of a request are never read, and neither callback leaves
    anything behind for a later request to meet. *)
Theorem reply_reads_method_target_and_validators
  (earlier1 earlier2 : list Request) (r1 r2 : Request) :
  method r1 = method r2 -> url r1 = url r2 -> validators r1 = validators r2 ->
  Server.reply_after earlier1 r1 = Server.reply_after earlier2 r2.
Proof.
  intros Hm Hu Hv. unfold validators in Hv. injection Hv as Hnone Hsince Hcache.
  rewrite !reply_table. f_equal.
  unfold reply_to, not_found, revalidates. rewrite Hm, Hu.
  rewrite (fresh_reads_validators _ _ _ _ Hnone Hsince Hcache). reflexivity.
Qed.

Lemma reply_reads_method_target_and_validators_post :
  Server.reply_after [] root_post
  = Server.reply_after [root_post; revalidating_get]
      {| method := POST; url := "/";
         reqHeaders := <["content-type" := "text/plain"]> ∅; content := "" |}.
Proof.
  apply (reply_reads_method_target_and_validators [] [root_post; revalidating_get]
           root_post
           {| method := POST; url := "/";
              reqHeaders := <["content-type" := "text/plain"]> ∅; content := "" |});
    reflexivity.
Defined.

End Routing.

(* ===================================================================== *)
(** * What the two callbacks leave alone *)
(* ===================================================================== *)

Section Frames.
Import Http Express SharedData Expected Variants.

(** X5.  On a response that is still open the middleware hands over to
    [next] exactly once and without an error, after it has put [*] under
    [Access-Control-Allow-Origin], whatever stood there and however the
    name is cased; every other header, the status, the body and the
    openness of the response are as it found them.  On a response already
    sent it throws and does not call [next]. *)
Theorem middleware_sets_one_header_and_hands_over
  (r : Request) (next : Next) (res : Res) :
  (finished res = false ->
   exists res',
     Server.allow_any_origin r next res = next None res'
     /\ outHeaders res' !! "access-control-allow-origin" = Some "*"
     /\ (forall name, name <> "access-control-allow-origin" ->
                      outHeaders res' !! name = outHeaders res !! name)
     /\ req res' = req res /\ statusCode res' = statusCode res
     /\ written res' = written res /\ finished res' = false)
  /\ (finished res = true ->
      Server.allow_any_origin r next res = Throw ERR_HTTP_HEADERS_SENT res).
Proof.
  destruct res as [rq st code hs w fin]. cbn [finished].
  unfold Server.allow_any_origin, setHeader, bind, get, modify, throw, with_headers.
  cbn [finished req app_settings statusCode outHeaders written].
  change (Chars.toLowerCase "Access-Control-Allow-Origin")
    with "access-control-allow-origin".
  split; intros ->.
  - eexists. split; [reflexivity|].
    cbn [finished req app_settings statusCode outHeaders written].
    split; [apply lookup_insert_eq|].
    split; [intros name Hname; apply lookup_insert_ne; congruence|].
    repeat split.
  - reflexivity.
Qed.

Lemma middleware_sets_one_header_and_hands_over_fresh :
  exists res',
    Server.allow_any_origin plain_get (fun _ => ret tt) (fresh plain_get)
    = (fun _ : option Err => ret tt) None res'
    /\ outHeaders res' !! "access-control-allow-origin" = Some "*"
    /\ (forall name, name <> "access-control-allow-origin" ->
                     outHeaders res' !! name = outHeaders (fresh plain_get) !! name)
    /\ req res' = req (fresh plain_get)
    /\ statusCode res' = statusCode (fresh plain_get)
    /\ written res' = written (fresh plain_get) /\ finished res' = false.
Proof.
  apply (proj1 (middleware_sets_one_header_and_hands_over
                  plain_get (fun _ => ret tt) (fresh plain_get))).
  reflexivity.
Defined.



End Frames.

(* ===================================================================== *)
(** * More on the click handler *)
(* ===================================================================== *)

Section Clicks.
Import Http Express Browser Client Expected Variants.

(** X7.  The click handler reads the body of the response and nothing
    else: two responses with the same body, whatever their status and
    headers, have the same effect.  A reply under an error status whose
    body is the payload text is logged like a success. *)
Theorem click_reads_the_body_alone (net net' : Network) (resp resp' : Response) :
  net endpoint emptyInit = Replied resp ->
  net' endpoint emptyInit = Replied resp' ->
  body resp = body resp' ->
  click net = click net'.
Proof.
  intros H H' Hbody.
  assert (json_of resp = json_of resp') as Hjson
    by (unfold json_of; rewrite Hbody; reflexivity).
  destruct (json_of resp') as [v|] eqn:Hj'.
  - rewrite (click_json net resp v H Hjson), (click_json net' resp' v H' Hj').
    reflexivity.
  - rewrite (click_not_json net resp H Hjson), (click_not_json net' resp' H' Hj').
    reflexivity.
Qed.

(** The payload text under status 500 and under status 200. *)
Lemma click_reads_the_body_alone_error_status :
  click (fun _ _ => Replied failed_reply) = click (fun _ _ => Replied plain_reply).
Proof.
  apply (click_reads_the_body_alone _ _ failed_reply plain_reply); reflexivity.
Defined.



(** What a click adds to the events does not depend on what is there. *)
Lemma onClick_appends (net : Network) (log : list Event) :
  fst (onClick net log) = log ++ fst (onClick net []).
Proof.
  unfold onClick, then_, fetch, response_json.
  destruct (net endpoint emptyInit) as [|resp|]; cbn; try reflexivity.
  destruct (json_of resp) as [v|]; cbn; [|reflexivity].
  destruct v as [| b | n | s | items | fields]; cbn; rewrite <- ?app_assoc; try reflexivity.
  destruct (JSON.get_own "payload" fields); cbn; rewrite <- ?app_assoc; reflexivity.
Qed.

Lemma onClick_requests_once (net : Network) :
  requests (fst (onClick net [])) = [(endpoint, emptyInit)]
  /\ length (logs (fst (onClick net []))) <= 1.
Proof.
  unfold onClick, then_, fetch, response_json.
  destruct (net endpoint emptyInit) as [|resp|]; cbn; try (split; [reflexivity|lia]).
  destruct (json_of resp) as [v|]; cbn; [|split; [reflexivity|lia]].
  destruct v as [| b | n | s | items | fields]; cbn; try (split; [reflexivity|lia]).
  destruct (JSON.get_own "payload" fields); cbn; split; try reflexivity; lia.
Qed.

Lemma requests_app (a b : list Event) : requests (a ++ b) = requests a ++ requests b.
Proof. apply flat_map_app. Qed.

Lemma logs_app (a b : list Event) : logs (a ++ b) = logs a ++ logs b.
Proof. apply flat_map_app. Qed.

(** X9.  Clicks add up: whatever the network does at each click and
    whatever was logged before, a series of clicks keeps the earlier
    events in place and sends one request per click, each to the same
    address with the same empty options; none is merged with or cancelled
    by another, and no click logs more than one line. *)
Theorem every_click_sends_its_own_request (nets : list Network) (log : list Event) :
  exists added,
    clicks nets log = log ++ added
    /\ requests added = map (fun _ => (endpoint, emptyInit)) nets
    /\ length (requests added) = length nets
    /\ length (logs added) <= length nets.
Proof.
  revert log. induction nets as [|net later IH]; intros log.
  - exists []. cbn. rewrite app_nil_r. repeat split; lia.
  - cbn [clicks].
    destruct (IH (fst (onClick net log))) as (added & Hlog & Hreq & Hlen & Hlogs).
    destruct (onClick_requests_once net) as [Hone Hlogone].
    exists (fst (onClick net []) ++ added).
    rewrite Hlog, onClick_appends, <- app_assoc.
    rewrite requests_app, logs_app, !length_app, Hone, Hreq.
    cbn [map Datatypes.app length]. rewrite length_map.
    repeat split; try reflexivity. lia.
Qed.

End Clicks.

(* ===================================================================== *)
(** * The payload on the wire *)
(* ===================================================================== *)

Section WireRoundTrip.
Import JSON SharedData Http Browser Client.

Lemma append_assoc (a b c : string) : (a +:+ b) +:+ c = a +:+ (b +:+ c).
Proof.
  induction a as [|x a IH]; [reflexivity|].
  change (String x ((a +:+ b) +:+ c) = String x (a +:+ (b +:+ c))).
  rewrite IH. reflexivity.
Qed.

(** What [quote_char] writes for one character is read back as its
    piece. *)
Lemma read_quoted_char (c : ascii) (tail : string) :
  read_pieces (quote_char c +:+ tail)
  = ('(ps, rest) ← read_pieces tail; Some (piece_of c :: ps, rest)).
Proof.
  destruct c as [[] [] [] [] [] [] [] []]; reflexivity.
Qed.

Lemma read_quoted (s rest : string) :
  read_pieces (quote_chars s +:+ String dquote rest) = Some (pieces_of s, rest).
Proof.
  induction s as [|c s IH]; cbn [quote_chars pieces_of].
  - reflexivity.
  - rewrite append_assoc, read_quoted_char, IH. reflexivity.
Qed.

Lemma text_of_piece (c : ascii) (ps : list piece) :
  text_of (piece_of c :: ps) = String c (text_of ps).
Proof.
  destruct c as [[] [] [] [] [] [] [] []];
    try reflexivity; destruct ps as [|[b|u] ps]; reflexivity.
Qed.

Lemma text_of_pieces (s : string) : text_of (pieces_of s) = s.
Proof.
  induction s as [|c s IH]; [reflexivity|].
  cbn [pieces_of]. rewrite text_of_piece, IH. reflexivity.
Qed.

(** A string of any bytes, quoted, is read back as it was. *)
Lemma read_string_quote (s rest : string) :
  read_string (quote_chars s +:+ String dquote rest) = Some (s, rest).
Proof. unfold read_string. rewrite read_quoted. cbn. rewrite text_of_pieces. reflexivity. Qed.

(** A quoted string where a value is expected. *)
Lemma read_value_quoted (fuel : nat) (s rest : string) :
  read_value (S fuel) (String dquote (quote_chars s +:+ String dquote rest))
  = Some (JStr s, rest).
Proof.
  change (read_value (S fuel) (String dquote (quote_chars s +:+ String dquote rest)))
    with ('(str, r) ← read_string (quote_chars s +:+ String dquote rest);
          Some (JStr str, r)).
  rewrite read_string_quote. reflexivity.
Qed.

(** A quoted key and its colon. *)
Lemma read_key_quoted (key rest : string) :
  read_key (String dquote (quote_chars key +:+ String dquote (String ":" rest)))
  = Some (key, rest).
Proof.
  change (read_key (String dquote (quote_chars key +:+ String dquote (String ":" rest))))
    with ('(k, r1) ← read_string (quote_chars key +:+ String dquote (String ":" rest));
          match skip_ws r1 with
          | String c' r2 => if Ascii.eqb c' ":" then Some (k, r2) else None
          | EmptyString => None
          end).
  rewrite read_string_quote. reflexivity.
Qed.

(** The text [stringify] writes for an object of one string property. *)
Lemma stringify_one_property (key s : string) :
  stringify (JObj [(key, JStr s)])
  = String "{" (String dquote (quote_chars key +:+ String dquote
      (String ":" (String dquote (quote_chars s +:+ String dquote "}"))))).
Proof.
  cbn [stringify map fst snd Chars.join]. unfold quote.
  change ("{" +:+ ?x) with (String "{" x).
  rewrite !append_assoc. reflexivity.
Qed.

Lemma read_one_property (key s : string) :
  read_value 3 (stringify (JObj [(key, JStr s)])) = Some (JObj [(key, JStr s)], "").
Proof.
  rewrite stringify_one_property.
  set (inner := String dquote (quote_chars s +:+ String dquote "}")).
  set (text := String dquote (quote_chars key +:+ String dquote (String ":" inner))).
  change (read_value 3 (String "{" text))
    with ('(fields, rest) ← ('(k, r) ← read_key text;
                             '(v, r') ← read_value 1 r;
                             match read_separator "}" r' with
                             | Comma r'' => read_members 1 (set_own k v []) r''
                             | Close rest => Some (set_own k v [], rest)
                             | Neither => None
                             end);
          Some (JObj fields, rest)).
  subst text. rewrite read_key_quoted. cbn [mbind option_bind].
  subst inner. rewrite read_value_quoted. reflexivity.
Qed.

(** X10.  What [res.json] writes for a [QueryPayload], [response.json()]
    reads back, whatever bytes the payload holds (quotes, backslashes,
    control characters, non-ASCII text): the text parses to the object it
    was written from, and a click that receives it logs the payload
    string, unchanged. *)
Theorem payload_survives_the_wire (q : QueryPayload) :
  parse (stringify (to_json q)) = Some (to_json q)
  /\ forall (net : Network) (resp : Response),
       net endpoint emptyInit = Replied resp ->
       body resp = Text (stringify (to_json q)) ->
       events (click net)
       = [Requested endpoint emptyInit; Logged (OfJson (JStr (payload q)))]
       /\ unhandled (click net) = None.
Proof.
  assert (parse (stringify (to_json q)) = Some (to_json q)) as Hparse.
  { destruct q as [s]. unfold to_json. cbn [payload].
    apply (parse_fuel_enough 3 _ _ ""); [apply read_one_property|reflexivity]. }
  split; [exact Hparse|].
  intros net resp H Hbody.
  assert (json_of resp = Some (to_json q)) as Hj
    by (unfold json_of; rewrite Hbody; exact Hparse).
  rewrite (click_json net resp _ H Hj). destruct q as [s]. split; reflexivity.
Qed.

(** A payload with a tab, a quote, a backslash and a control character. *)
Lemma payload_survives_the_wire_awkward :
  events (click (fun _ _ => Replied Variants.awkward_reply))
  = [Requested endpoint emptyInit; Logged (OfJson (JStr (payload Variants.awkward)))]
  /\ unhandled (click (fun _ _ => Replied Variants.awkward_reply)) = None.
Proof.
  apply (proj2 (payload_survives_the_wire Variants.awkward)
           (fun _ _ => Replied Variants.awkward_reply) Variants.awkward_reply);
    reflexivity.
Defined.

End WireRoundTrip.

(* ===================================================================== *)
(** * Origins *)
(* ===================================================================== *)

Section Origins.
Import Http Express Browser Client Expected Variants.

Lemma respond_bare :
  respond [Route GET "/" Server.get_root] plain_get = Some bare_reply.
Proof. vm_compute. reflexivity. Qed.

Lemma bare_reply_parses :
  json_of bare_reply = Some (SharedData.to_json Server.responseData).
Proof. vm_compute. reflexivity. Qed.

(** The network of a machine where the route is the only layer. *)
Lemma network_to_route_only (page : Wire.Origin) :
  Wire.network_to route_only page endpoint emptyInit
  = if Wire.same_origin page server_url then Replied bare_reply else Failed.
Proof.
  unfold Wire.network_to. rewrite endpoint_parses. fold server_url.
  change (String.eqb (Url.host server_url) "localhost"
          && (Url.port server_url =? Server.module_port route_only)%nat) with true.
  cbn iota.
  change (snd (Server.serve route_only
                 {| method := default GET (init_method emptyInit);
                    url := Url.target server_url;
                    reqHeaders := ∅;
                    content := default "" (init_body emptyInit) |}))
    with (respond [Route GET "/" Server.get_root] plain_get).
  rewrite respond_bare. unfold Wire.cors_allows.
  replace (header "Access-Control-Allow-Origin" bare_reply) with (@None string)
    by (vm_compute; reflexivity).
  rewrite orb_false_r. reflexivity.
Qed.

(** X11.  The route callback sets no [Access-Control-Allow-Origin] of
    its own.  Were it the only layer, a page of another origin could not
    read its reply and the click would end in a failed fetch; only a page
    served from the server's own origin would get the payload.  The
    middleware before it is what opens the reply to the button's page. *)
Theorem route_alone_is_closed_to_other_origins (page : Wire.Origin) :
  (Wire.same_origin page server_url = false ->
   click (Wire.network_to route_only page)
   = {| events := [Requested endpoint emptyInit]; unhandled := Some FetchFailed |})
  /\ (Wire.same_origin page server_url = true ->
      click (Wire.network_to route_only page)
      = {| events :=
             [Requested endpoint emptyInit;
              Logged (OfJson (JSON.JStr "server_data_returned_successfully"))];
           unhandled := None |}).
Proof.
  split; intros Hso.
  - apply click_failed. rewrite network_to_route_only, Hso. reflexivity.
  - rewrite (click_json _ bare_reply (SharedData.to_json Server.responseData)).
    + reflexivity.
    + rewrite network_to_route_only, Hso. reflexivity.
    + exact bare_reply_parses.
Qed.

(** The page of the development server, on port 3000. *)
Lemma route_alone_is_closed_to_other_origins_dev :
  click (Wire.network_to route_only dev_page)
  = {| events := [Requested endpoint emptyInit]; unhandled := Some FetchFailed |}.
Proof.
  apply (proj1 (route_alone_is_closed_to_other_origins dev_page)). reflexivity.
Defined.

End Origins.

(* ===================================================================== *)
(** * README.md: the first step *)
(* ===================================================================== *)

Section ReadmeFirstStep.
Import Http Express Browser Expected Variants.

Lemma readme_root_reply (r : Request) :
  getPathname (url r) = "/" ->
  exists reply,
    respond Readme.app r = Some reply
    /\ status reply = 404
    /\ header "Access-Control-Allow-Origin" reply = None
    /\ json_of reply = None.
Proof.
  destruct r as [m u fields c]; cbn [url]; intros Hpath.
  unfold respond, dispatch, Readme.app. cbn [handle method url]. rewrite Hpath.
  change (path_matches "/data" "/") with false. cbn iota.
  destruct m; (eexists; split; [vm_compute; reflexivity|]);
    repeat split; vm_compute; reflexivity.
Qed.

(** X12.  The server and the button as the README first gives them do not
    meet: the server routes [/data] alone and sets no CORS header, the
    button fetches the root.  Every request for the root gets a 404
    without the header, and the click logs nothing from a page of any
    origin: the fetch fails for a page of another origin, the 404 page
    fails to parse for a page of the server's own. *)
Theorem readme_first_button_never_logs :
  (forall r : Request,
      getPathname (url r) = "/" ->
      exists reply,
        respond Readme.app r = Some reply
        /\ status reply = 404
        /\ header "Access-Control-Allow-Origin" reply = None)
  /\ (forall page : Wire.Origin,
        Readme.click (Wire.network_to Readme.loaded page)
        = {| Client.events := [Requested "http://localhost:3001/" emptyInit];
             Client.unhandled :=
               Some (if Wire.same_origin page server_url
                     then JsonSyntaxError else FetchFailed) |}).
Proof.
  split.
  - intros r Hpath. destruct (readme_root_reply r Hpath) as (reply & H1 & H2 & H3 & _).
    exists reply. auto.
  - intros page.
    destruct (readme_root_reply plain_get eq_refl) as (reply & Hreply & _ & Hcors & Hjson).
    assert (Wire.network_to Readme.loaded page "http://localhost:3001/" emptyInit
            = if Wire.same_origin page server_url then Replied reply else Failed) as Hnet.
    { unfold Wire.network_to.
      change (Url.parse "http://localhost:3001/") with (Url.parse Client.endpoint).
      rewrite endpoint_parses. fold server_url.
      change (String.eqb (Url.host server_url) "localhost"
              && (Url.port server_url =? Server.module_port Readme.loaded)%nat) with true.
      cbn iota.
      change (snd (Server.serve Readme.loaded
                     {| method := default GET (init_method emptyInit);
                        url := Url.target server_url;
                        reqHeaders := ∅;
                        content := default "" (init_body emptyInit) |}))
        with (respond Readme.app plain_get).
      rewrite Hreply. unfold Wire.cors_allows. rewrite Hcors, orb_false_r. reflexivity. }
    unfold Readme.click, Readme.onClick, then_, fetch, response_json.
    rewrite Hnet. destruct (Wire.same_origin page server_url); cbn.
    + rewrite Hjson. reflexivity.
    + reflexivity.
Qed.

(** A GET of the root with a query string. *)
Lemma readme_first_button_never_logs_root :
  exists reply,
    respond Readme.app busy_get = Some reply
    /\ status reply = 404
    /\ header "Access-Control-Allow-Origin" reply = None.
Proof.
  apply (proj1 readme_first_button_never_logs busy_get). reflexivity.
Defined.

End ReadmeFirstStep.
